(** * Quiet-hours scheduler: the reminder sweep and the overlap guard

    A shallow embedding of
      - [src/app/api/cron/route.ts], lines 1-239 (the cron endpoint: [GET]
        and [POST]; the line numbers quoted below are those of that file)
        and lines 266-464 (its second copy),
      - the block-creation page ([handleSubmit] and its overlap check),
      - the dashboard page ([fetchQuietBlocks] and [getBlockStatus]),
    followed by the properties the specification states about them.

    Instants are JavaScript [Date] values, i.e. integral milliseconds since
    the epoch, modelled as [Z].  A timestamp of a row is the instant the
    store holds; the code reads it with [new Date], which fails on a year
    that is not written with four digits ([Dates]).  [Cron] is the endpoint
    on tables whose timestamps are all readable, [Endpoint] the endpoint on
    any table; the two agree on the former ([endpoint_on_readable]).  The
    [quiet_blocks] table is a list of rows (the order in which the store
    returns them is the order of the list); its primary key is [id], which
    is why several statements assume the ids of the rows to be pairwise
    distinct.  The [profiles] table is a finite map from the user id, its
    primary key.

    Everything the outside world decides during one invocation (a query
    that reports an error, an SMTP delivery that throws) is collected in a
    record of answers that the embedded function takes as an argument.  The
    store client reports failures in the [error] field of its result and
    does not throw; [sendReminderEmail] throws when the delivery fails. *)

From stdpp Require Import base gmap strings list.
From Stdlib Require Import ZArith Lia Ascii String List Sorted.
Import ListNotations.

Local Open Scope string_scope.
Local Open Scope list_scope.
Local Open Scope Z_scope.

Set Warnings "-register-all".

(** ** JavaScript helpers *)

Module Js.

(** [s.includes(needle)] *)
Fixpoint includes (s needle : string) : bool :=
  String.prefix needle s ||
  match s with
  | EmptyString => false
  | String _ rest => includes rest needle
  end.

(** Truthiness of a possibly-null string: [null], [undefined] and the
    empty string are falsy. *)
Definition truthy (s : option string) : bool :=
  match s with
  | None => false
  | Some EmptyString => false
  | Some _ => true
  end.

(** [s.split(sep)[0]] for a one-character separator. *)
Fixpoint split_head (sep : ascii) (s : string) : string :=
  match s with
  | EmptyString => EmptyString
  | String c rest =>
      if Ascii.eqb c sep then EmptyString else String c (split_head sep rest)
  end.

(** The white space and the line terminators [trim] removes.  A text is
    held in UTF-8: of these characters, those below U+0080 (the space and
    U+0009 to U+000D) take one byte, U+00A0 takes two, and U+1680, U+2000
    to U+200A, U+2028, U+2029, U+202F, U+205F, U+3000 and U+FEFF take
    three. *)
Definition is_space (c : ascii) : bool :=
  let n := nat_of_ascii c in
  (n =? 32)%nat || ((9 <=? n)%nat && (n <=? 13)%nat).

Definition is_space2 (c1 c2 : ascii) : bool :=
  (nat_of_ascii c1 =? 194)%nat && (nat_of_ascii c2 =? 160)%nat.

Definition is_space3 (c1 c2 c3 : ascii) : bool :=
  let n1 := nat_of_ascii c1 in
  let n2 := nat_of_ascii c2 in
  let n3 := nat_of_ascii c3 in
  ((n1 =? 225) && (n2 =? 154) && (n3 =? 128))%nat
  || ((n1 =? 226) && (n2 =? 128) &&
      (((128 <=? n3) && (n3 <=? 138)) || (n3 =? 168) || (n3 =? 169)
       || (n3 =? 175)))%nat
  || ((n1 =? 226) && (n2 =? 129) && (n3 =? 159))%nat
  || ((n1 =? 227) && (n2 =? 128) && (n3 =? 128))%nat
  || ((n1 =? 239) && (n2 =? 187) && (n3 =? 191))%nat.

Fixpoint trim_start (s : list ascii) : list ascii :=
  match s with
  | [] => []
  | c1 :: r1 =>
      if is_space c1 then trim_start r1
      else
        match r1 with
        | [] => s
        | c2 :: r2 =>
            if is_space2 c1 c2 then trim_start r2
            else
              match r2 with
              | [] => s
              | c3 :: r3 =>
                  if is_space3 c1 c2 c3 then trim_start r3 else s
              end
        end
  end.

(** The same from the end, on the reversed text. *)
Fixpoint trim_end (s : list ascii) : list ascii :=
  match s with
  | [] => []
  | c1 :: r1 =>
      if is_space c1 then trim_end r1
      else
        match r1 with
        | [] => s
        | c2 :: r2 =>
            if is_space2 c2 c1 then trim_end r2
            else
              match r2 with
              | [] => s
              | c3 :: r3 =>
                  if is_space3 c3 c2 c1 then trim_end r3 else s
              end
        end
  end.

Definition trim (s : string) : string :=
  string_of_list_ascii
    (rev (trim_end (rev (trim_start (list_ascii_of_string s))))).

(** [a || b] on possibly-null strings. *)
Definition or_else (a b : option string) : option string :=
  if truthy a then a else b.

End Js.

(** ** Dates as JavaScript reads them

    A timestamp reaches the code as text: the store writes a [timestamptz]
    in ISO form, in UTC, and a [datetime-local] field holds a date-time
    without zone.  [new Date(text)] reads such a text when its year is
    written with four digits, that is for the years 0001 to 9999; for a
    longer year, or a year that PostgreSQL marks [BC], it yields an Invalid
    Date, whose time value is [NaN]. *)

Module Dates.

Definition year_1 : Z := -62135596800000.        (* 0001-01-01T00:00:00Z *)
Definition year_10000 : Z := 253402300800000.    (* 10000-01-01T00:00:00Z *)

(** The instant is written with a four-digit year. *)
Definition readable (t : Z) : bool := (year_1 <=? t) && (t <? year_10000).

(** The time value of [new Date(text)]; [None] is [NaN]. *)
Definition new_Date (t : Z) : option Z :=
  if readable t then Some t else None.

(** The relational operators on time values: a comparison with [NaN] is
    false. *)
Definition lt (a b : option Z) : bool :=
  match a, b with Some x, Some y => x <? y | _, _ => false end.

Definition le (a b : option Z) : bool :=
  match a, b with Some x, Some y => x <=? y | _, _ => false end.

Definition gt (a b : option Z) : bool :=
  match a, b with Some x, Some y => x >? y | _, _ => false end.

Definition ge (a b : option Z) : bool :=
  match a, b with Some x, Some y => x >=? y | _, _ => false end.

End Dates.

(** ** The record store *)

Record quiet_block := {
  id : string;
  user_id : string;
  title : string;
  start_time : Z;
  end_time : Z;
  is_active : bool;
  reminder_sent : bool
}.

Record profile := {
  email : option string;
  full_name : option string
}.

Record database := {
  quiet_blocks : list quiet_block;
  profiles : gmap string profile
}.

Definition set_is_active (v : bool) (b : quiet_block) : quiet_block :=
  {| id := id b; user_id := user_id b; title := title b;
     start_time := start_time b; end_time := end_time b;
     is_active := v; reminder_sent := reminder_sent b |}.

Definition set_reminder_sent (v : bool) (b : quiet_block) : quiet_block :=
  {| id := id b; user_id := user_id b; title := title b;
     start_time := start_time b; end_time := end_time b;
     is_active := is_active b; reminder_sent := v |}.

Definition mem_id (i : string) (ids : list string) : bool :=
  existsb (String.eqb i) ids.

(** [.from('quiet_blocks').update(patch).in('id', ids)] *)
Definition update_in (patch : quiet_block -> quiet_block) (ids : list string)
    (rows : list quiet_block) : list quiet_block :=
  map (fun r => if mem_id (id r) ids then patch r else r) rows.

(** [.from('quiet_blocks').update(patch).eq('id', i)] *)
Definition update_eq (patch : quiet_block -> quiet_block) (i : string)
    (rows : list quiet_block) : list quiet_block :=
  map (fun r => if String.eqb (id r) i then patch r else r) rows.

(** ** The cron endpoint, [src/app/api/cron/route.ts] *)

Module Cron.

Record request := {
  authorization : option string;
  user_agent : option string
}.

(** [process.env] *)
Record process_env := {
  CRON_SECRET : option string;
  NODE_ENV : option string
}.

(** What the store and the SMTP transport answer during one invocation.
    A store operation that reports an error changes nothing. *)
Record world := {
  fetch_error : bool;
  deactivate_error : bool;
  profile_error : string -> bool;
  transport_fails : quiet_block -> bool;
  mark_error : string -> bool
}.

(** The argument of [sendReminderEmail]. *)
Record mail := {
  to : string;
  userName : string;
  blockName : string;
  startTime : Z;
  endTime : Z;
  reminderMinutes : Z
}.

(** The console lines the statements below refer to. *)
Inductive log_line :=
| LogRejected
| ErrFetch
| ErrDeactivate
| LogReady (block_id : string)
| WarnNoProfile (user : string)
| WarnNoEmail (user : string)
| ErrUpdateStatus (block_id : string)
| LogReminderSent (block_title : string)
| ErrEmailFailed (block_id : string)
| LogNotReady (block_id : string) (reason : string).

Inductive json :=
| JNum (n : Z)
| JStr (s : string)
| JIso (instant : Z)          (* [Date.prototype.toISOString] *)
| JObj (fields : list (string * json)).

Record response := {
  status : Z;
  body : json
}.

(** [NextResponse.json(body)] answers 200 unless a status is given. *)
Definition NextResponse_json (b : json) : response :=
  {| status := 200; body := b |}.

Definition NextResponse_json_status (b : json) (st : Z) : response :=
  {| status := st; body := b |}.

Definition field (k : string) (j : json) : option json :=
  match j with
  | JObj fs => snd <$> List.find (fun kv => String.eqb (fst kv) k) fs
  | _ => None
  end.

(** *** The authorization gate (lines 30-58) *)

Definition isKnownCronService (userAgent : option string) : bool :=
  match userAgent with
  | None => false
  | Some ua =>
      Js.includes ua "cron-job.org" || Js.includes ua "cron-job" ||
      Js.includes ua "UptimeRobot"
  end.

Definition bearer_matches (authHeader : option string) (secret : string)
    : bool :=
  match authHeader with
  | None => false
  | Some h => String.eqb h ("Bearer " ++ secret)
  end.

Definition is_production (env : process_env) : bool :=
  match NODE_ENV env with
  | Some v => String.eqb v "production"
  | None => false
  end.

(** [true] when the request is answered 401. *)
Definition rejects (env : process_env) (req : request) : bool :=
  match CRON_SECRET env with
  | Some secret =>
      if Js.truthy (Some secret) && negb (bearer_matches (authorization req) secret)
      then is_production env && negb (isKnownCronService (user_agent req))
      else false
  | None => false
  end.

(** *** The sweep (lines 60-225) *)

Definition ten_minutes : Z := 10 * 60 * 1000.
Definition fiveMinutesInMs : Z := 5 * 60 * 1000.

(** The candidate query: [is_active = true] and [reminder_sent = false]. *)
Definition candidate (b : quiet_block) : bool :=
  is_active b && negb (reminder_sent b).

(** Lines 84-87.  The test [endTime < now] is false of an end the code
    cannot read; the test below says the same of every end from the year
    0001 on, on a clock before the year 10000. *)
Definition is_expired (now : Z) (b : quiet_block) : bool :=
  is_active b && (end_time b <? now).

Definition in_future_not_expired (now : Z) (b : quiet_block) : bool :=
  let isInFuture := start_time b >? now in
  let isNotExpired := end_time b >=? now in
  isInFuture && isNotExpired.

Definition timeDiff (now : Z) (b : quiet_block) : Z :=
  let reminderTime := start_time b - ten_minutes in
  Z.abs (now - reminderTime).

Definition in_window (now : Z) (b : quiet_block) : bool :=
  (timeDiff now b <=? fiveMinutesInMs) && (now <? start_time b).

(** State threaded through the [for] loop. *)
Record loop_state := {
  rows : list quiet_block;
  sentCount : Z;
  errorCount : Z;
  outbox : list (string * mail);
  console : list log_line
}.

Definition say (l : log_line) (s : loop_state) : loop_state :=
  {| rows := rows s; sentCount := sentCount s; errorCount := errorCount s;
     outbox := outbox s; console := console s ++ [l] |}.

Definition count_error (s : loop_state) : loop_state :=
  {| rows := rows s; sentCount := sentCount s;
     errorCount := errorCount s + 1;
     outbox := outbox s; console := console s |}.

Definition count_sent (s : loop_state) : loop_state :=
  {| rows := rows s; sentCount := sentCount s + 1;
     errorCount := errorCount s;
     outbox := outbox s; console := console s |}.

(** A call of [sendReminderEmail] that returned, for the block [i]. *)
Definition deliver (i : string) (m : mail) (s : loop_state) : loop_state :=
  {| rows := rows s; sentCount := sentCount s; errorCount := errorCount s;
     outbox := outbox s ++ [(i, m)]; console := console s |}.

Definition with_rows (r : list quiet_block) (s : loop_state) : loop_state :=
  {| rows := r; sentCount := sentCount s; errorCount := errorCount s;
     outbox := outbox s; console := console s |}.

(** [.from('profiles').select(...).eq('id', user).single()]: an error, or
    no row, leaves [profile] null. *)
Definition fetch_profile (w : world) (ps : gmap string profile)
    (user : string) : option profile :=
  if profile_error w user then None else ps !! user.

Definition render (b : quiet_block) (userEmail : string) (p : profile)
    : mail :=
  let name :=
    Js.or_else
      (Js.or_else (full_name p) (Some (Js.split_head "@" userEmail)))
      (Some "User") in
  {| to := userEmail;
     userName := default "User" name;
     blockName := title b;
     startTime := start_time b;
     endTime := end_time b;
     reminderMinutes := 10 |}.

(** One iteration of the loop over [activeBlocks] (lines 138-215). *)
Definition process_block (w : world) (ps : gmap string profile) (now : Z)
    (s : loop_state) (block : quiet_block) : loop_state :=
  if in_window now block then
    let s := say (LogReady (id block)) s in
    match fetch_profile w ps (user_id block) with
    | None => say (WarnNoProfile (user_id block)) s
    | Some p =>
        if negb (Js.truthy (email p)) then
          say (WarnNoEmail (user_id block)) s
        else
          let userEmail := default "" (email p) in
          if transport_fails w block then
            count_error (say (ErrEmailFailed (id block)) s)
          else
            let s := deliver (id block) (render block userEmail p) s in
            if mark_error w (id block) then
              count_error (say (ErrUpdateStatus (id block)) s)
            else
              let s :=
                with_rows
                  (update_eq (set_reminder_sent true) (id block) (rows s)) s in
              say (LogReminderSent (title block)) (count_sent s)
    end
  else
    let reason :=
      if timeDiff now block >? fiveMinutesInMs
      then "Too early/late" else "Block already started" in
    say (LogNotReady (id block) reason) s.

Definition run_loop (w : world) (ps : gmap string profile) (now : Z)
    (s : loop_state) (activeBlocks : list quiet_block) : loop_state :=
  fold_left (process_block w ps now) activeBlocks s.

Record result := {
  answer : response;
  store : database;
  delivered : list (string * mail);
  logged : list log_line
}.

Definition len {A} (l : list A) : Z := Z.of_nat (length l).

(** Lines 89-99: the bulk update of the expired rows. *)
Definition deactivate (w : world) (expiredBlocks : list quiet_block)
    (s : loop_state) : loop_state :=
  if (len expiredBlocks >? 0) then
    let expiredBlockIds := map id expiredBlocks in
    if deactivate_error w then say ErrDeactivate s
    else with_rows (update_in (set_is_active false) expiredBlockIds (rows s)) s
  else s.

Definition start_state (d : database) : loop_state :=
  {| rows := quiet_blocks d; sentCount := 0; errorCount := 0;
     outbox := []; console := [] |}.

(** Lines 60-225: everything after the authorization gate. *)
Definition sweep (w : world) (now : Z) (d : database) : result :=
  if fetch_error w then
    {| answer :=
         NextResponse_json_status
           (JObj [("error", JStr "Failed to fetch quiet blocks")]) 500;
       store := d; delivered := []; logged := [ErrFetch] |}
  else
    let quietBlocks := List.filter candidate (quiet_blocks d) in
    let expiredBlocks := List.filter (is_expired now) quietBlocks in
    let s1 := deactivate w expiredBlocks (start_state d) in
    let activeBlocks := List.filter (in_future_not_expired now) quietBlocks in
    if (len activeBlocks =? 0) then
      {| answer :=
           NextResponse_json
             (JObj
                [("message",
                   JStr "No active quiet blocks need reminders at this time");
                 ("timestamp", JIso now);
                 ("checked", JNum (len quietBlocks));
                 ("expired", JNum (len expiredBlocks));
                 ("sent", JNum 0);
                 ("debug",
                   JObj [("totalBlocks", JNum (len quietBlocks));
                         ("activeBlocks", JNum (len activeBlocks));
                         ("expiredBlocks", JNum (len expiredBlocks))])]);
         store := {| quiet_blocks := rows s1; profiles := profiles d |};
         delivered := outbox s1; logged := console s1 |}
    else
      let s2 := run_loop w (profiles d) now s1 activeBlocks in
      {| answer :=
           NextResponse_json
             (JObj
                [("message", JStr "Cron job completed");
                 ("timestamp", JIso now);
                 ("processed", JNum (len quietBlocks));
                 ("sent", JNum (sentCount s2));
                 ("errors", JNum (errorCount s2))]);
         store := {| quiet_blocks := rows s2; profiles := profiles d |};
         delivered := outbox s2; logged := console s2 |}.

Definition GET (env : process_env) (w : world) (now : Z) (req : request)
    (d : database) : result :=
  if rejects env req then
    {| answer :=
         NextResponse_json_status (JObj [("error", JStr "Unauthorized")]) 401;
       store := d; delivered := []; logged := [LogRejected] |}
  else sweep w now d.

(** [POST] hands the request to [GET] (lines 237-239). *)
Definition POST (env : process_env) (w : world) (now : Z) (req : request)
    (d : database) : result :=
  GET env w now req d.

End Cron.

(** ** The first endpoint on rows as the store sends them

    [Cron] above takes the start and the end of a row for the time values
    the code computes from them, which is what they are when every
    timestamp of the table is readable (lemma [endpoint_on_readable]).
    [Endpoint] is the same code with [new Date(block.start_time)] and
    [new Date(block.end_time)] written out, for tables that hold
    timestamps the code cannot read. *)

Module Endpoint.
Import Cron.

Definition is_expired (now : Z) (block : quiet_block) : bool :=
  let endTime := Dates.new_Date (end_time block) in
  is_active block && Dates.lt endTime (Some now).

Definition in_future_not_expired (now : Z) (block : quiet_block) : bool :=
  let startTime := Dates.new_Date (start_time block) in
  let endTime := Dates.new_Date (end_time block) in
  let isInFuture := Dates.gt startTime (Some now) in
  let isNotExpired := Dates.ge endTime (Some now) in
  isInFuture && isNotExpired.

(** [Math.abs(now.getTime() - reminderTime.getTime())] *)
Definition timeDiff (now : Z) (block : quiet_block) : option Z :=
  match Dates.new_Date (start_time block) with
  | Some startTime =>
      let reminderTime := startTime - ten_minutes in
      Some (Z.abs (now - reminderTime))
  | None => None
  end.

Definition in_window (now : Z) (block : quiet_block) : bool :=
  let startTime := Dates.new_Date (start_time block) in
  Dates.le (timeDiff now block) (Some fiveMinutesInMs) &&
  Dates.lt (Some now) startTime.

(** One iteration of the loop over [activeBlocks] (lines 138-215). *)
Definition process_block (w : world) (ps : gmap string profile) (now : Z)
    (s : loop_state) (block : quiet_block) : loop_state :=
  if in_window now block then
    let s := say (LogReady (id block)) s in
    match fetch_profile w ps (user_id block) with
    | None => say (WarnNoProfile (user_id block)) s
    | Some p =>
        if negb (Js.truthy (email p)) then
          say (WarnNoEmail (user_id block)) s
        else
          let userEmail := default "" (email p) in
          if transport_fails w block then
            count_error (say (ErrEmailFailed (id block)) s)
          else
            let s := deliver (id block) (render block userEmail p) s in
            if mark_error w (id block) then
              count_error (say (ErrUpdateStatus (id block)) s)
            else
              let s :=
                with_rows
                  (update_eq (set_reminder_sent true) (id block) (rows s)) s in
              say (LogReminderSent (title block)) (count_sent s)
    end
  else
    let reason :=
      if Dates.gt (timeDiff now block) (Some fiveMinutesInMs)
      then "Too early/late" else "Block already started" in
    say (LogNotReady (id block) reason) s.

Definition run_loop (w : world) (ps : gmap string profile) (now : Z)
    (s : loop_state) (activeBlocks : list quiet_block) : loop_state :=
  fold_left (process_block w ps now) activeBlocks s.

(** The rows the sweep read that reach the loop. *)
Definition activeBlocks (now : Z) (d : database) : list quiet_block :=
  List.filter (in_future_not_expired now)
    (List.filter candidate (quiet_blocks d)).

(** The rows the sweep read that it deactivates. *)
Definition expiredBlocks (now : Z) (d : database) : list quiet_block :=
  List.filter (is_expired now) (List.filter candidate (quiet_blocks d)).

(** Lines 60-225. *)
Definition sweep (w : world) (now : Z) (d : database) : result :=
  if fetch_error w then
    {| answer :=
         NextResponse_json_status
           (JObj [("error", JStr "Failed to fetch quiet blocks")]) 500;
       store := d; delivered := []; logged := [ErrFetch] |}
  else
    let quietBlocks := List.filter candidate (quiet_blocks d) in
    let expiredBlocks := List.filter (is_expired now) quietBlocks in
    let s1 := deactivate w expiredBlocks (start_state d) in
    let activeBlocks := List.filter (in_future_not_expired now) quietBlocks in
    if (len activeBlocks =? 0) then
      {| answer :=
           NextResponse_json
             (JObj
                [("message",
                   JStr "No active quiet blocks need reminders at this time");
                 ("timestamp", JIso now);
                 ("checked", JNum (len quietBlocks));
                 ("expired", JNum (len expiredBlocks));
                 ("sent", JNum 0);
                 ("debug",
                   JObj [("totalBlocks", JNum (len quietBlocks));
                         ("activeBlocks", JNum (len activeBlocks));
                         ("expiredBlocks", JNum (len expiredBlocks))])]);
         store := {| quiet_blocks := rows s1; profiles := profiles d |};
         delivered := outbox s1; logged := console s1 |}
    else
      let s2 := run_loop w (profiles d) now s1 activeBlocks in
      {| answer :=
           NextResponse_json
             (JObj
                [("message", JStr "Cron job completed");
                 ("timestamp", JIso now);
                 ("processed", JNum (len quietBlocks));
                 ("sent", JNum (sentCount s2));
                 ("errors", JNum (errorCount s2))]);
         store := {| quiet_blocks := rows s2; profiles := profiles d |};
         delivered := outbox s2; logged := console s2 |}.

Definition GET (env : process_env) (w : world) (now : Z) (req : request)
    (d : database) : result :=
  if rejects env req then
    {| answer :=
         NextResponse_json_status (JObj [("error", JStr "Unauthorized")]) 401;
       store := d; delivered := []; logged := [LogRejected] |}
  else sweep w now d.

Definition POST (env : process_env) (w : world) (now : Z) (req : request)
    (d : database) : result :=
  GET env w now req d.

End Endpoint.

(** ** The creation page, [handleSubmit] *)

Module Create.

(** The form fields.  A [datetime-local] input holds either the empty
    string ([None]) or a wall-clock date-time without zone, given here as
    the milliseconds that date-time denotes when read as UTC. *)
Record form := {
  title_field : string;
  startTime_field : option Z;
  endTime_field : option Z
}.

(** What the browser session and the store answer during one submit. *)
Record world := {
  user : option string;          (* [useAuth().user], its id *)
  session_ok : bool;             (* [supabase.auth.getSession()] *)
  tz_offset : Z -> Z;            (* the offset east of UTC, in ms, that
                                    the browser's zone gives a
                                    wall-clock date-time *)
  check_error : bool;            (* the select of existing blocks fails *)
  insert_error : bool;           (* the insert fails for a reason of the
                                    store's own *)
  new_id : string                (* the id the store gives the new row *)
}.

Inductive rejection :=
| NotLoggedIn
| AuthenticationError
| TitleRequired
| StartRequired
| EndRequired
| EndNotAfterStart
| CheckFailed
| Overlap
| InsertFailed.

(** The text handed to [setError]; for the two store failures the store's
    own message follows the prefix. *)
Definition message (r : rejection) : string :=
  match r with
  | NotLoggedIn => "You must be logged in to create a quiet block"
  | AuthenticationError => "Authentication error. Please log in again."
  | TitleRequired => "Title is required"
  | StartRequired => "Start time is required"
  | EndRequired => "End time is required"
  | EndNotAfterStart => "End time must be after start time"
  | CheckFailed => "Failed to check existing blocks: "
  | Overlap =>
      "This time slot overlaps with an existing quiet block. Please choose a different time."
  | InsertFailed => "Failed to create quiet block: "
  end.

Inductive outcome :=
| Rejected (why : rejection)
| Redirected.                    (* [router.push('/dashboard')] *)

Record result := {
  shown : outcome;
  store : database
}.

(** [new Date(field)]: a date-time without zone is read in local time,
    at the offset the zone has at that date-time (it changes with daylight
    saving and over the zone's history), when its year has four digits. *)
Definition Date_local (w : world) (wall : Z) : option Z :=
  if Dates.readable wall then Some (wall - tz_offset w wall) else None.

Definition ist_offset : Z := (5 * 60 + 30) * 60 * 1000.

(** The instant denoted by [formatISTForStorage(field)], i.e. the field
    followed by [:00.000+05:30]. *)
Definition formatISTForStorage (wall : Z) : Z := wall - ist_offset.

(** [.select('start_time, end_time').eq('user_id', u).eq('is_active', true)] *)
Definition existing_blocks (u : string) (d : database) : list quiet_block :=
  List.filter (fun b => String.eqb (user_id b) u && is_active b)
    (quiet_blocks d).

(** The loop of lines 97-105: [true] when it throws. *)
Fixpoint overlaps (newStart newEnd : option Z)
    (existingBlocks : list quiet_block) : bool :=
  match existingBlocks with
  | [] => false
  | block :: rest =>
      let existingStart := Dates.new_Date (start_time block) in
      let existingEnd := Dates.new_Date (end_time block) in
      if Dates.lt newStart existingEnd && Dates.gt newEnd existingStart
      then true
      else overlaps newStart newEnd rest
  end.

Definition insertData (u : string) (w : world) (f : form)
    (startTime endTime : Z) : quiet_block :=
  {| id := new_id w;
     user_id := u;
     title := Js.trim (title_field f);
     start_time := formatISTForStorage startTime;
     end_time := formatISTForStorage endTime;
     is_active := true;
     reminder_sent := false |}.

(** The table's constraint [check_end_after_start], which the store
    applies to the row it is asked to insert.  (Its other constraint, on
    the title, cannot fail here: the title was found non-empty after
    [trim].) *)
Definition check_end_after_start (b : quiet_block) : bool :=
  end_time b >? start_time b.

Definition reject (why : rejection) (d : database) : result :=
  {| shown := Rejected why; store := d |}.

Definition handleSubmit (w : world) (f : form) (d : database) : result :=
  match user w with
  | None => reject NotLoggedIn d
  | Some u =>
      if negb (session_ok w) then reject AuthenticationError d
      else if negb (Js.truthy (Some (Js.trim (title_field f)))) then
        reject TitleRequired d
      else
        match startTime_field f with
        | None => reject StartRequired d
        | Some startTime =>
            match endTime_field f with
            | None => reject EndRequired d
            | Some endTime =>
                let start := Date_local w startTime in
                let end_ := Date_local w endTime in
                if Dates.ge start end_ then reject EndNotAfterStart d
                else if check_error w then reject CheckFailed d
                else if overlaps start end_ (existing_blocks u d) then
                  reject Overlap d
                else if insert_error w ||
                        negb (check_end_after_start
                                (insertData u w f startTime endTime))
                then reject InsertFailed d
                else
                  {| shown := Redirected;
                     store :=
                       {| quiet_blocks :=
                            quiet_blocks d ++
                            [insertData u w f startTime endTime];
                          profiles := profiles d |} |}
            end
        end
  end.

End Create.

(** ** The dashboard page, [fetchQuietBlocks] and [getBlockStatus] *)

Module Dashboard.

(** The [fetchError] that the function throws and catches again. *)
Record thrown := {
  is_Error : bool;                 (* [err instanceof Error] *)
  message : string                 (* [err.message] *)
}.

(** What the session and the store answer during one fetch. *)
Record world := {
  user : option string;            (* [useAuth().user], its id *)
  fetch_error : option thrown;     (* the select fails *)
  update_error : bool              (* the bulk update fails *)
}.

(** The component state the function writes. *)
Record state := {
  quietBlocks : list quiet_block;
  loading : bool;
  error : string;
  hasFetched : bool
}.

Record result := {
  shown : state;
  store : database
}.

(** [.order('start_time', { ascending: true })], as an insertion sort; the
    store does not say how it orders rows with equal start. *)
Fixpoint insert_by_start (b : quiet_block) (l : list quiet_block)
    : list quiet_block :=
  match l with
  | [] => [b]
  | x :: rest =>
      if start_time b <=? start_time x then b :: l
      else x :: insert_by_start b rest
  end.

Definition order_by_start (l : list quiet_block) : list quiet_block :=
  fold_right insert_by_start [] l.

(** [.select('*').eq('user_id', u).order('start_time', ...)] *)
Definition select_own (u : string) (d : database) : list quiet_block :=
  order_by_start
    (List.filter (fun b => String.eqb (user_id b) u) (quiet_blocks d)).

(** [endTime < now], which is false of an end the code cannot read; the
    test below says the same of every end from the year 0001 on, on a clock
    before the year 10000. *)
Definition is_expired (now : Z) (block : quiet_block) : bool :=
  end_time block <? now.

Definition is_shown (now : Z) (block : quiet_block) : bool :=
  let endTime := Dates.new_Date (end_time block) in
  is_active block && Dates.ge endTime (Some now).

Definition fetchQuietBlocks (w : world) (now : Z) (showLoading : bool)
    (st : state) (d : database) : result :=
  match user w with
  | None => {| shown := st; store := d |}
  | Some u =>
      match fetch_error w with
      | Some err =>
          {| shown :=
               {| quietBlocks := quietBlocks st;
                  loading := if showLoading then false else loading st;
                  error :=
                    if is_Error err then message err
                    else "Failed to fetch quiet blocks";
                  hasFetched := hasFetched st |};
             store := d |}
      | None =>
          let data := select_own u d in
          let expiredBlocks := List.filter (is_expired now) data in
          let rows :=
            if (Cron.len expiredBlocks >? 0) then
              let expiredIds := map id expiredBlocks in
              if update_error w then quiet_blocks d
              else update_in (set_is_active false) expiredIds (quiet_blocks d)
            else quiet_blocks d in
          let activeBlocks := List.filter (is_shown now) data in
          {| shown :=
               {| quietBlocks := activeBlocks;
                  loading := if showLoading then false else loading st;
                  error := "";
                  hasFetched := true |};
             store := {| quiet_blocks := rows; profiles := profiles d |} |}
      end
  end.

Inductive status := upcoming | active | completed.

(** Lines 185-197, on a row whose start and end are readable. *)
Definition getBlockStatus (now : Z) (block : quiet_block) : status :=
  let startTime := start_time block in
  let endTime := end_time block in
  if now <? startTime then upcoming
  else if (now >=? startTime) && (now <=? endTime) then active
  else completed.

End Dashboard.

(** ** The second cron endpoint of [route.ts] (lines 266-464)

    It differs from the first in the gate (no UptimeRobot), in the
    candidate query (which also asks for [start_time > now]), in the filter
    before the loop and in the answer without work.  The loop body is the
    same code up to the wording of its console lines. *)

Module Cron2.
Import Cron.

Definition isKnownCronService (userAgent : option string) : bool :=
  match userAgent with
  | None => false
  | Some ua => Js.includes ua "cron-job.org" || Js.includes ua "cron-job"
  end.

Definition rejects (env : process_env) (req : request) : bool :=
  match CRON_SECRET env with
  | Some secret =>
      if Js.truthy (Some secret) &&
         negb (bearer_matches (authorization req) secret)
      then is_production env && negb (isKnownCronService (user_agent req))
      else false
  | None => false
  end.

(** [.eq('is_active', true).eq('reminder_sent', false).gt('start_time', now)] *)
Definition candidate (now : Z) (b : quiet_block) : bool :=
  is_active b && negb (reminder_sent b) && (start_time b >? now).

Definition not_expired (now : Z) (b : quiet_block) : bool :=
  end_time b >=? now.

Definition sweep (w : world) (now : Z) (d : database) : result :=
  if fetch_error w then
    {| answer :=
         NextResponse_json_status
           (JObj [("error", JStr "Failed to fetch quiet blocks")]) 500;
       store := d; delivered := []; logged := [ErrFetch] |}
  else
    let quietBlocks := List.filter (candidate now) (quiet_blocks d) in
    let expiredBlocks := List.filter (is_expired now) quietBlocks in
    let s1 := deactivate w expiredBlocks (start_state d) in
    let activeBlocks := List.filter (not_expired now) quietBlocks in
    if (len activeBlocks =? 0) then
      {| answer :=
           NextResponse_json
             (JObj
                [("message",
                   JStr "No active quiet blocks need reminders at this time");
                 ("timestamp", JIso now);
                 ("checked", JNum (len quietBlocks));
                 ("expired", JNum (len expiredBlocks));
                 ("sent", JNum 0)]);
         store := {| quiet_blocks := rows s1; profiles := profiles d |};
         delivered := outbox s1; logged := console s1 |}
    else
      let s2 := run_loop w (profiles d) now s1 activeBlocks in
      {| answer :=
           NextResponse_json
             (JObj
                [("message", JStr "Cron job completed");
                 ("timestamp", JIso now);
                 ("processed", JNum (len quietBlocks));
                 ("sent", JNum (sentCount s2));
                 ("errors", JNum (errorCount s2))]);
         store := {| quiet_blocks := rows s2; profiles := profiles d |};
         delivered := outbox s2; logged := console s2 |}.

Definition GET (env : process_env) (w : world) (now : Z) (req : request)
    (d : database) : result :=
  if rejects env req then
    {| answer :=
         NextResponse_json_status (JObj [("error", JStr "Unauthorized")]) 401;
       store := d; delivered := []; logged := [LogRejected] |}
  else sweep w now d.

Definition POST (env : process_env) (w : world) (now : Z) (req : request)
    (d : database) : result :=
  GET env w now req d.

End Cron2.

(** ** Vocabulary for the additional statements *)

Module Shape.

(** Two rows that differ at most in their flags. *)
Definition same_block (b b' : quiet_block) : Prop :=
  id b' = id b /\ user_id b' = user_id b /\ title b' = title b /\
  start_time b' = start_time b /\ end_time b' = end_time b.

(** Half-open intervals that do not intersect. *)
Definition apart (a b : quiet_block) : Prop :=
  end_time a <= start_time b \/ end_time b <= start_time a.

(** The active blocks of [u] are pairwise apart. *)
Definition no_overlap (u : string) (d : database) : Prop :=
  ForallOrdPairs apart (Create.existing_blocks u d).

(** Ascending order of start. *)
Definition by_start (a b : quiet_block) : Prop :=
  start_time a <= start_time b.

(** PostgreSQL's [trim(text)]: spaces are removed at both ends. *)
Definition is_blank (c : ascii) : bool := Ascii.eqb c " ".

Fixpoint ltrim (s : list ascii) : list ascii :=
  match s with
  | c :: rest => if is_blank c then ltrim rest else s
  | [] => []
  end.

Definition sql_trim (s : string) : string :=
  string_of_list_ascii (rev (ltrim (rev (ltrim (list_ascii_of_string s))))).

(** The two CHECK constraints of the [quiet_blocks] table:
    [end_time > start_time] and [length(trim(title)) > 0]. *)
Definition well_formed (b : quiet_block) : Prop :=
  end_time b > start_time b /\ (String.length (sql_trim (title b)) > 0)%nat.

End Shape.

(** ** Sample data *)

Module Sample.

Definition minute : Z := 60 * 1000.

Definition alice : profile :=
  {| email := Some "alice@example.org"; full_name := Some "Alice" |}.

Definition block (i : string) (s e : Z) : quiet_block :=
  {| id := i; user_id := "u1"; title := "Deep work";
     start_time := s; end_time := e;
     is_active := true; reminder_sent := false |}.

Definition db (bs : list quiet_block) : database :=
  {| quiet_blocks := bs; profiles := {[ "u1" := alice ]} |}.

Definition open_env : Cron.process_env :=
  {| Cron.CRON_SECRET := None; Cron.NODE_ENV := Some "production" |}.

Definition anyone : Cron.request :=
  {| Cron.authorization := None; Cron.user_agent := None |}.

(** Every collaborator answers successfully. *)
Definition fine : Cron.world :=
  {| Cron.fetch_error := false;
     Cron.deactivate_error := false;
     Cron.profile_error := fun _ => false;
     Cron.transport_fails := fun _ => false;
     Cron.mark_error := fun _ => false |}.

(** The store cannot record that a reminder went out. *)
Definition mark_broken : Cron.world :=
  {| Cron.fetch_error := false;
     Cron.deactivate_error := false;
     Cron.profile_error := fun _ => false;
     Cron.transport_fails := fun _ => false;
     Cron.mark_error := fun _ => true |}.

(** The SMTP transport throws for the block with id [i]. *)
Definition smtp_refuses (i : string) : Cron.world :=
  {| Cron.fetch_error := false;
     Cron.deactivate_error := false;
     Cron.profile_error := fun _ => false;
     Cron.transport_fails := fun b => String.eqb (id b) i;
     Cron.mark_error := fun _ => false |}.

(** The profile lookup fails. *)
Definition lookup_broken : Cron.world :=
  {| Cron.fetch_error := false;
     Cron.deactivate_error := false;
     Cron.profile_error := fun _ => true;
     Cron.transport_fails := fun _ => false;
     Cron.mark_error := fun _ => false |}.

Definition fetch_broken : Cron.world :=
  {| Cron.fetch_error := true;
     Cron.deactivate_error := false;
     Cron.profile_error := fun _ => false;
     Cron.transport_fails := fun _ => false;
     Cron.mark_error := fun _ => false |}.

(** A logged-in user whose browser runs on Indian Standard Time. *)
Definition student : Create.world :=
  {| Create.user := Some "u1";
     Create.session_ok := true;
     Create.tz_offset := fun _ => Create.ist_offset;
     Create.check_error := false;
     Create.insert_error := false;
     Create.new_id := "n1" |}.


(** A form whose fields, followed by [+05:30], denote the instants [s]
    and [e]. *)
Definition entry (s e : Z) : Create.form :=
  {| Create.title_field := " Maths ";
     Create.startTime_field := Some (s + Create.ist_offset);
     Create.endTime_field := Some (e + Create.ist_offset) |}.

End Sample.

(** ** Vocabulary for the statements

    What one loop iteration does with a block, read off [process_block];
    the lemmas [process_block_*] below tie each of these to the code. *)

Module Reading.
Import Cron.

(** The owner's address, when the profile lookup yields one. *)
Definition contact (w : world) (ps : gmap string profile) (b : quiet_block)
    : option (string * profile) :=
  match fetch_profile w ps (user_id b) with
  | Some p =>
      match email p with
      | Some e => if Js.truthy (Some e) then Some (e, p) else None
      | None => None
      end
  | None => None
  end.

(** The message [sendReminderEmail] delivers for the block, if any. *)
Definition sends (w : world) (ps : gmap string profile) (now : Z)
    (b : quiet_block) : option mail :=
  if in_window now b then
    match contact w ps b with
    | Some (e, p) => if transport_fails w b then None else Some (render b e p)
    | None => None
    end
  else None.

(** The iteration ends in [sentCount++]. *)
Definition counted_sent (w : world) (ps : gmap string profile) (now : Z)
    (b : quiet_block) : bool :=
  match sends w ps now b with
  | Some _ => negb (mark_error w (id b))
  | None => false
  end.

(** The iteration ends in [errorCount++]. *)
Definition counted_error (w : world) (ps : gmap string profile) (now : Z)
    (b : quiet_block) : bool :=
  in_window now b &&
  match contact w ps b with
  | Some _ => transport_fails w b || mark_error w (id b)
  | None => false
  end.

Definition delivery (w : world) (ps : gmap string profile) (now : Z)
    (b : quiet_block) : list (string * mail) :=
  match sends w ps now b with
  | Some m => [(id b, m)]
  | None => []
  end.

(** The rows the sweep read that reach the loop. *)
Definition activeBlocks (now : Z) (d : database) : list quiet_block :=
  List.filter (in_future_not_expired now)
    (List.filter candidate (quiet_blocks d)).

(** The rows the sweep read whose end lies before [now]. *)
Definition expiredBlocks (now : Z) (d : database) : list quiet_block :=
  List.filter (is_expired now) (List.filter candidate (quiet_blocks d)).

(** The table after the bulk update of lines 89-99. *)
Definition after_expiry (w : world) (now : Z) (d : database)
    : list quiet_block :=
  if deactivate_error w then quiet_blocks d
  else update_in (set_is_active false) (map id (expiredBlocks now d))
         (quiet_blocks d).

(** The ids the loop marks as reminded. *)
Definition marked_ids (w : world) (now : Z) (d : database) : list string :=
  map id (List.filter (counted_sent w (profiles d) now) (activeBlocks now d)).

(** What one sweep does to a row of the table. *)
Definition swept (w : world) (now : Z) (d : database) (r : quiet_block)
    : quiet_block :=
  let r1 :=
    if negb (deactivate_error w) &&
       mem_id (id r) (map id (expiredBlocks now d))
    then set_is_active false r else r in
  if mem_id (id r) (marked_ids w now d)
  then set_reminder_sent true r1 else r1.

End Reading.

(** ** Sequences of trigger invocations *)

Module Schedule.
Import Cron.

Record invocation := {
  at_env : process_env;
  at_world : world;
  at_now : Z;
  at_request : request
}.

Definition fire (i : invocation) (d : database) : database :=
  store (GET (at_env i) (at_world i) (at_now i) (at_request i) d).

(** What the invocation does to a row: nothing when the request is
    turned away or the candidates cannot be read. *)
Definition effect (i : invocation) (d : database) (r : quiet_block)
    : quiet_block :=
  if rejects (at_env i) (at_request i) || fetch_error (at_world i) then r
  else Reading.swept (at_world i) (at_now i) d r.

Definition run (d : database) (invs : list invocation) : database :=
  fold_left (fun d i => fire i d) invs d.

(** Row [k] goes from [reminder_sent = false] to [true] between [d], [d']. *)
Definition flips (k : nat) (d d' : database) : bool :=
  match nth_error (quiet_blocks d) k, nth_error (quiet_blocks d') k with
  | Some b, Some b' => negb (reminder_sent b) && reminder_sent b'
  | _, _ => false
  end.

(** How often row [k] makes that transition along a run. *)
Fixpoint transitions (k : nat) (d : database) (invs : list invocation) : nat :=
  match invs with
  | [] => 0%nat
  | i :: rest =>
      ((if flips k d (fire i d) then 1 else 0) +
       transitions k (fire i d) rest)%nat
  end.

End Schedule.

(** * Properties *)

Import Cron Reading Sample.

Section Rows.

Lemma mem_id_In i ids : mem_id i ids = true <-> In i ids.
Proof.
  unfold mem_id. rewrite existsb_exists. split.
  - intros (x & Hx & He). apply String.eqb_eq in He. by subst.
  - intros Hi. exists i. split; [done|]. apply String.eqb_refl.
Qed.

Lemma update_in_nil patch rs : update_in patch [] rs = rs.
Proof. unfold update_in. simpl. apply map_id. Qed.

(** Marking one more id, then a list of ids, is marking them all. *)
Lemma update_in_mark_cons i ids rs :
  update_in (set_reminder_sent true) ids
    (update_eq (set_reminder_sent true) i rs)
  = update_in (set_reminder_sent true) (i :: ids) rs.
Proof.
  unfold update_in, update_eq. rewrite map_map. apply map_ext. intros r.
  unfold mem_id. simpl.
  destruct (String.eqb (id r) i) eqn:E; simpl; [|done].
  by destruct (existsb _ ids).
Qed.

End Rows.

(** ** The loop *)

Ltac iteration :=
  unfold process_block, counted_sent, counted_error, delivery, sends, contact;
  repeat
    match goal with
    | |- context [if in_window ?n ?b then _ else _] =>
        destruct (in_window n b) eqn:?
    | |- context [match fetch_profile ?w ?ps ?u with _ => _ end] =>
        destruct (fetch_profile w ps u) as [[[[|? ?]|] ?]|] eqn:?
    | |- context [if transport_fails ?w ?b then _ else _] =>
        destruct (transport_fails w b) eqn:?
    | |- context [if mark_error ?w ?i then _ else _] =>
        destruct (mark_error w i) eqn:?
    | _ => progress (cbn [negb Js.truthy email default andb orb rows sentCount
                          errorCount outbox console say count_error count_sent
                          deliver with_rows])
    end.

Section Loop.

Variables (w : world) (ps : gmap string profile) (now : Z).

Lemma process_block_rows s b :
  rows (process_block w ps now s b) =
  if counted_sent w ps now b
  then update_eq (set_reminder_sent true) (id b) (rows s)
  else rows s.
Proof. iteration; reflexivity. Qed.

Lemma process_block_sentCount s b :
  sentCount (process_block w ps now s b) =
  sentCount s + (if counted_sent w ps now b then 1 else 0).
Proof. iteration; lia. Qed.

Lemma process_block_errorCount s b :
  errorCount (process_block w ps now s b) =
  errorCount s + (if counted_error w ps now b then 1 else 0).
Proof. iteration; lia. Qed.

Lemma process_block_outbox s b :
  outbox (process_block w ps now s b) = outbox s ++ delivery w ps now b.
Proof. iteration; rewrite ?app_nil_r; reflexivity. Qed.

Lemma process_block_ready s b i :
  In (LogReady i) (console (process_block w ps now s b)) <->
  In (LogReady i) (console s) \/ (in_window now b = true /\ id b = i).
Proof.
  iteration; rewrite ?in_app_iff; cbn [In]; intuition congruence.
Qed.

Lemma run_loop_cons s b l :
  run_loop w ps now s (b :: l) =
  run_loop w ps now (process_block w ps now s b) l.
Proof. reflexivity. Qed.

Lemma run_loop_rows l : forall s,
  rows (run_loop w ps now s l) =
  update_in (set_reminder_sent true)
    (map id (List.filter (counted_sent w ps now) l)) (rows s).
Proof.
  induction l as [|b l IH]; intros s.
  - cbn. by rewrite update_in_nil.
  - rewrite run_loop_cons, IH, process_block_rows. cbn [List.filter].
    destruct (counted_sent w ps now b); [|done].
    cbn [map]. apply update_in_mark_cons.
Qed.

Lemma run_loop_sentCount l : forall s,
  sentCount (run_loop w ps now s l) =
  sentCount s + len (List.filter (counted_sent w ps now) l).
Proof.
  unfold len. induction l as [|b l IH]; intros s.
  - cbn. lia.
  - rewrite run_loop_cons, IH, process_block_sentCount. cbn [List.filter].
    destruct (counted_sent w ps now b); cbn [length]; lia.
Qed.

Lemma run_loop_errorCount l : forall s,
  errorCount (run_loop w ps now s l) =
  errorCount s + len (List.filter (counted_error w ps now) l).
Proof.
  unfold len. induction l as [|b l IH]; intros s.
  - cbn. lia.
  - rewrite run_loop_cons, IH, process_block_errorCount. cbn [List.filter].
    destruct (counted_error w ps now b); cbn [length]; lia.
Qed.

Lemma run_loop_outbox l : forall s,
  outbox (run_loop w ps now s l) =
  outbox s ++ flat_map (delivery w ps now) l.
Proof.
  induction l as [|b l IH]; intros s.
  - cbn. by rewrite app_nil_r.
  - rewrite run_loop_cons, IH, process_block_outbox. cbn [flat_map].
    by rewrite <- app_assoc.
Qed.

Lemma run_loop_ready l i : forall s,
  In (LogReady i) (console (run_loop w ps now s l)) <->
  In (LogReady i) (console s) \/
  exists b, In b l /\ in_window now b = true /\ id b = i.
Proof.
  induction l as [|b l IH]; intros s.
  - cbn. split; [by left|]. by intros [H|(b & [] & _)].
  - rewrite run_loop_cons, IH, process_block_ready. cbn [In]. split.
    + intros [[H|H]|(c & Hc & H)]; eauto 6.
    + intros [H|(c & [->|Hc] & H)]; eauto 6.
Qed.

End Loop.

(** ** One sweep *)

Section Sweep.

Variables (w : world) (now : Z) (d : database).
Hypothesis fetched : fetch_error w = false.

Lemma len_zero {A} (l : list A) : (len l =? 0) = true <-> l = [].
Proof.
  unfold len. rewrite Z.eqb_eq. destruct l; cbn [length]; split;
    intros; try done; lia.
Qed.

Lemma len_pos {A} (l : list A) : (len l >? 0) = false <-> l = [].
Proof.
  unfold len. rewrite Z.gtb_ltb, Z.ltb_ge. destruct l; cbn [length]; split;
    intros; try done; lia.
Qed.

Lemma deactivate_rows :
  rows (deactivate w (expiredBlocks now d) (start_state d)) =
  after_expiry w now d.
Proof.
  unfold deactivate, after_expiry.
  destruct (len (expiredBlocks now d) >? 0) eqn:E.
  - by destruct (deactivate_error w).
  - apply len_pos in E. rewrite E. cbn [map start_state rows].
    rewrite update_in_nil. by destruct (deactivate_error w).
Qed.

Lemma deactivate_outbox :
  outbox (deactivate w (expiredBlocks now d) (start_state d)) = [].
Proof.
  unfold deactivate.
  by destruct (len _ >? 0), (deactivate_error w).
Qed.

Lemma deactivate_counts :
  sentCount (deactivate w (expiredBlocks now d) (start_state d)) = 0 /\
  errorCount (deactivate w (expiredBlocks now d) (start_state d)) = 0.
Proof.
  unfold deactivate.
  by destruct (len _ >? 0), (deactivate_error w).
Qed.

Lemma deactivate_ready i :
  ~ In (LogReady i)
      (console (deactivate w (expiredBlocks now d) (start_state d))).
Proof.
  unfold deactivate.
  destruct (len _ >? 0), (deactivate_error w); cbn; intuition congruence.
Qed.

Lemma sweep_rows :
  quiet_blocks (store (sweep w now d)) =
  update_in (set_reminder_sent true) (marked_ids w now d)
    (after_expiry w now d).
Proof using fetched.
  unfold sweep, marked_ids. rewrite fetched.
  fold (expiredBlocks now d). fold (activeBlocks now d).
  destruct (len (activeBlocks now d) =? 0) eqn:E; cbn [store quiet_blocks].
  - apply len_zero in E. rewrite E. cbn [List.filter map].
    by rewrite update_in_nil, deactivate_rows.
  - by rewrite run_loop_rows, deactivate_rows.
Qed.

Lemma sweep_profiles : profiles (store (sweep w now d)) = profiles d.
Proof using fetched.
  unfold sweep. rewrite fetched. by destruct (len _ =? 0).
Qed.

Lemma sweep_delivered :
  delivered (sweep w now d) =
  flat_map (delivery w (profiles d) now) (activeBlocks now d).
Proof using fetched.
  unfold sweep. rewrite fetched.
  fold (expiredBlocks now d). fold (activeBlocks now d).
  destruct (len (activeBlocks now d) =? 0) eqn:E; cbn [delivered].
  - apply len_zero in E. rewrite E. apply deactivate_outbox.
  - by rewrite run_loop_outbox, deactivate_outbox.
Qed.

Lemma sweep_ready i :
  In (LogReady i) (logged (sweep w now d)) <->
  exists b, In b (activeBlocks now d) /\ in_window now b = true /\ id b = i.
Proof using fetched.
  unfold sweep. rewrite fetched.
  fold (expiredBlocks now d). fold (activeBlocks now d).
  destruct (len (activeBlocks now d) =? 0) eqn:E; cbn [logged].
  - apply len_zero in E. rewrite E. split.
    + intros H. by apply deactivate_ready in H.
    + intros (b & [] & _).
  - rewrite run_loop_ready. split.
    + intros [H|H]; [by apply deactivate_ready in H|done].
    + by right.
Qed.

Lemma sweep_status : status (answer (sweep w now d)) = 200.
Proof using fetched.
  unfold sweep. rewrite fetched. by destruct (len _ =? 0).
Qed.

(** The summary when some block reaches the loop. *)
Lemma sweep_summary :
  activeBlocks now d <> [] ->
  body (answer (sweep w now d)) =
  JObj [("message", JStr "Cron job completed");
        ("timestamp", JIso now);
        ("processed", JNum (len (List.filter candidate (quiet_blocks d))));
        ("sent",
          JNum (len (List.filter (counted_sent w (profiles d) now)
                       (activeBlocks now d))));
        ("errors",
          JNum (len (List.filter (counted_error w (profiles d) now)
                       (activeBlocks now d))))].
Proof using fetched.
  intros Hne. unfold sweep. rewrite fetched.
  fold (expiredBlocks now d). fold (activeBlocks now d).
  destruct (len (activeBlocks now d) =? 0) eqn:E.
  - by apply len_zero in E.
  - cbn [answer body NextResponse_json].
    rewrite run_loop_sentCount, run_loop_errorCount.
    destruct deactivate_counts as [-> ->]. by rewrite !Z.add_0_l.
Qed.

(** The summary when none does. *)
Lemma sweep_idle :
  activeBlocks now d = [] ->
  body (answer (sweep w now d)) =
  JObj [("message",
          JStr "No active quiet blocks need reminders at this time");
        ("timestamp", JIso now);
        ("checked", JNum (len (List.filter candidate (quiet_blocks d))));
        ("expired", JNum (len (expiredBlocks now d)));
        ("sent", JNum 0);
        ("debug",
          JObj [("totalBlocks",
                  JNum (len (List.filter candidate (quiet_blocks d))));
                ("activeBlocks", JNum 0);
                ("expiredBlocks", JNum (len (expiredBlocks now d)))])].
Proof using fetched.
  intros He. unfold sweep. rewrite fetched.
  fold (expiredBlocks now d). fold (activeBlocks now d).
  rewrite He. reflexivity.
Qed.

End Sweep.

(** ** Rows and their ids *)

Section Ids.

Lemma sweep_rows_map w now d :
  fetch_error w = false ->
  quiet_blocks (store (sweep w now d)) = map (swept w now d) (quiet_blocks d).
Proof.
  intros Hf. rewrite sweep_rows by done.
  unfold after_expiry, update_in, swept.
  destruct (deactivate_error w); cbn [negb andb].
  - done.
  - rewrite map_map. apply map_ext. intros r.
    by destruct (mem_id (id r) (map id (expiredBlocks now d))).
Qed.

Lemma Forall2_map_self {A} (R : A -> A -> Prop) (F : A -> A) l :
  (forall x, In x l -> R x (F x)) -> Forall2 R l (map F l).
Proof.
  induction l as [|x l IH]; intros H; cbn [map]; constructor.
  - apply H. by left.
  - apply IH. intros y Hy. apply H. by right.
Qed.

Lemma same_id_same_row l (b c : quiet_block) :
  NoDup (map id l) -> In b l -> In c l -> id c = id b -> c = b.
Proof.
  intros Hnd Hb Hc Hid.
  induction l as [|x l IH]; [done|].
  cbn [map] in Hnd. apply NoDup_cons_iff in Hnd as [Hx Hnd].
  destruct Hc as [->|Hc], Hb as [->|Hb]; try done.
  - exfalso. apply Hx. rewrite Hid. by apply in_map.
  - exfalso. apply Hx. rewrite <- Hid. by apply in_map.
  - by apply IH.
Qed.

(** With unique ids, a row's id is among the selected ids exactly when
    the row itself is selected. *)
Lemma id_selected (f : quiet_block -> bool) l b :
  NoDup (map id l) -> In b l ->
  (mem_id (id b) (map id (List.filter f l)) = true <-> f b = true).
Proof.
  intros Hnd Hb. rewrite mem_id_In, in_map_iff. split.
  - intros (c & Hid & Hc). apply filter_In in Hc as [Hc Hf].
    by rewrite <- (same_id_same_row l b c).
  - intros Hf. exists b. split; [done|]. by apply filter_In.
Qed.

Lemma filter_filter_and {A} (f g : A -> bool) l :
  List.filter g (List.filter f l) = List.filter (fun x => f x && g x) l.
Proof.
  induction l as [|x l IH]; [done|]. cbn [List.filter].
  destruct (f x); cbn [List.filter andb]; by rewrite IH.
Qed.

Lemma expired_selected now d b :
  NoDup (map id (quiet_blocks d)) -> In b (quiet_blocks d) ->
  (mem_id (id b) (map id (expiredBlocks now d)) = true <->
   candidate b = true /\ is_expired now b = true).
Proof.
  intros Hnd Hb. unfold expiredBlocks. rewrite filter_filter_and.
  rewrite id_selected by done. apply andb_true_iff.
Qed.

Lemma marked_selected w now d b :
  NoDup (map id (quiet_blocks d)) -> In b (quiet_blocks d) ->
  (mem_id (id b) (marked_ids w now d) = true <->
   candidate b = true /\ in_future_not_expired now b = true /\
   counted_sent w (profiles d) now b = true).
Proof.
  intros Hnd Hb. unfold marked_ids, activeBlocks.
  rewrite !filter_filter_and, id_selected by done.
  rewrite !andb_true_iff. tauto.
Qed.

Lemma active_iff now d b :
  In b (activeBlocks now d) <->
  In b (quiet_blocks d) /\ candidate b = true /\
  in_future_not_expired now b = true.
Proof. unfold activeBlocks. rewrite !filter_In. tauto. Qed.

Lemma GET_admitted env w now req d :
  rejects env req = false -> GET env w now req d = sweep w now d.
Proof. unfold GET. by intros ->. Qed.

End Ids.

(** ** The due window *)

Lemma in_window_iff now b :
  in_window now b = true <->
  Z.abs (now - (start_time b - 10 * 60 * 1000)) <= 5 * 60 * 1000 /\
  now < start_time b.
Proof.
  unfold in_window, timeDiff, ten_minutes, fiveMinutesInMs.
  rewrite andb_true_iff, Z.leb_le, Z.ltb_lt. lia.
Qed.

Lemma in_future_not_expired_iff now b :
  in_future_not_expired now b = true <->
  now < start_time b /\ now <= end_time b.
Proof.
  unfold in_future_not_expired. cbn zeta.
  rewrite andb_true_iff, Z.gtb_ltb, Z.ltb_lt, Z.geb_leb, Z.leb_le. lia.
Qed.

(** ** Rows across invocations *)

Section Runs.
Import Schedule.

Lemma Forall2_map_left {A B C} (R : B -> C -> Prop) (F : A -> B) l l' :
  Forall2 (fun x y => R (F x) y) l l' <-> Forall2 R (map F l) l'.
Proof.
  revert l'. induction l as [|x l IH]; intros l'; cbn [map]; split;
    intros H; inversion H; subst; constructor; try done; by apply IH.
Qed.

Lemma Forall2_same {A} (R : A -> A -> Prop) l :
  (forall x, R x x) -> Forall2 R l l.
Proof. intros H. induction l; by constructor. Qed.

Lemma swept_id w now d r : id (swept w now d r) = id r.
Proof.
  unfold swept.
  by destruct (negb _ && _), (mem_id (id r) (marked_ids w now d)).
Qed.


Lemma swept_reminded w now d r :
  reminder_sent r = true -> reminder_sent (swept w now d r) = true.
Proof.
  unfold swept.
  by destruct (negb _ && _), (mem_id (id r) (marked_ids w now d)).
Qed.

Lemma fire_rows i d :
  quiet_blocks (fire i d) = map (effect i d) (quiet_blocks d).
Proof.
  unfold fire, effect, GET.
  destruct (rejects _ _); cbn [orb store]; [by rewrite map_id|].
  destruct (fetch_error (at_world i)) eqn:E.
  - unfold sweep. rewrite E. cbn [store]. by rewrite map_id.
  - by apply sweep_rows_map.
Qed.



Lemma effect_reminded i d r :
  reminder_sent r = true -> reminder_sent (effect i d r) = true.
Proof. unfold effect. destruct (_ || _); [done|apply swept_reminded]. Qed.


End Runs.

(** ** Expiry *)

Lemma is_expired_iff now b :
  is_expired now b = true <-> is_active b = true /\ end_time b < now.
Proof. unfold is_expired. by rewrite andb_true_iff, Z.ltb_lt. Qed.

Lemma candidate_iff b :
  candidate b = true <-> is_active b = true /\ reminder_sent b = false.
Proof. unfold candidate. rewrite andb_true_iff, negb_true_iff. done. Qed.




(** ** Reading dates *)

Lemma new_Date_readable t :
  Dates.readable t = true -> Dates.new_Date t = Some t.
Proof. unfold Dates.new_Date. by intros ->. Qed.

Lemma new_Date_Some t x :
  Dates.new_Date t = Some x <-> x = t /\ Dates.readable t = true.
Proof.
  unfold Dates.new_Date. destruct (Dates.readable t); split;
    try (by intros [= <-]); by intros [-> ?].
Qed.

Lemma Dates_lt_iff a b :
  Dates.lt a b = true <-> exists x y, a = Some x /\ b = Some y /\ x < y.
Proof.
  destruct a as [x|], b as [y|]; cbn [Dates.lt]; split;
    try done; try (by intros (? & ? & ? & ? & _)).
  - intros H. apply Z.ltb_lt in H. by exists x, y.
  - intros (? & ? & [= <-] & [= <-] & H). by apply Z.ltb_lt.
Qed.

Lemma Dates_gt_iff a b :
  Dates.gt a b = true <-> exists x y, a = Some x /\ b = Some y /\ x > y.
Proof.
  destruct a as [x|], b as [y|]; cbn [Dates.gt]; split;
    try done; try (by intros (? & ? & ? & ? & _)).
  - intros H. rewrite Z.gtb_ltb in H. apply Z.ltb_lt in H.
    exists x, y. repeat split; lia.
  - intros (? & ? & [= <-] & [= <-] & H). rewrite Z.gtb_ltb.
    apply Z.ltb_lt. lia.
Qed.

Lemma Dates_ge_iff a b :
  Dates.ge a b = true <-> exists x y, a = Some x /\ b = Some y /\ x >= y.
Proof.
  destruct a as [x|], b as [y|]; cbn [Dates.ge]; split;
    try done; try (by intros (? & ? & ? & ? & _)).
  - intros H. rewrite Z.geb_leb in H. apply Z.leb_le in H.
    exists x, y. repeat split; lia.
  - intros (? & ? & [= <-] & [= <-] & H). rewrite Z.geb_leb.
    apply Z.leb_le. lia.
Qed.

Lemma Dates_le_iff a b :
  Dates.le a b = true <-> exists x y, a = Some x /\ b = Some y /\ x <= y.
Proof.
  destruct a as [x|], b as [y|]; cbn [Dates.le]; split;
    try done; try (by intros (? & ? & ? & ? & _)).
  - intros H. apply Z.leb_le in H. by exists x, y.
  - intros (? & ? & [= <-] & [= <-] & H). by apply Z.leb_le.
Qed.

Lemma Date_local_Some w wall x :
  Create.Date_local w wall = Some x <->
  x = wall - Create.tz_offset w wall /\ Dates.readable wall = true.
Proof.
  unfold Create.Date_local. destruct (Dates.readable wall); split;
    try (by intros [= <-]); by intros [-> ?].
Qed.

(** ** The overlap guard *)

(** The guard sees an existing block when it can read both its ends and
    both date-times of the form. *)
Lemma overlaps_iff newStart newEnd l :
  Create.overlaps newStart newEnd l = true <->
  exists b x y,
    In b l /\ newStart = Some x /\ newEnd = Some y /\
    Dates.readable (start_time b) = true /\
    Dates.readable (end_time b) = true /\
    x < end_time b /\ y > start_time b.
Proof.
  induction l as [|c l IH]; cbn [Create.overlaps In].
  - split; [done|]. by intros (b & ? & ? & [] & _).
  - destruct (Dates.lt newStart (Dates.new_Date (end_time c)) &&
              Dates.gt newEnd (Dates.new_Date (start_time c))) eqn:E.
    + split; [|done]. intros _.
      apply andb_true_iff in E as [E1 E2].
      apply Dates_lt_iff in E1 as (x & e & -> & He & Hlt).
      apply Dates_gt_iff in E2 as (y & s & -> & Hs & Hgt).
      apply new_Date_Some in He as [-> He].
      apply new_Date_Some in Hs as [-> Hs].
      exists c, x, y. repeat split; try done. by left.
    + rewrite IH. split.
      * intros (b & x & y & Hb & H). exists b, x, y. split; [by right|done].
      * intros (b & x & y & [->|Hb] & -> & -> & Hs & He & Hlt & Hgt);
          [|by exists b, x, y].
        exfalso. apply not_true_iff_false in E. apply E.
        rewrite andb_true_iff, Dates_lt_iff, Dates_gt_iff.
        rewrite !new_Date_readable by done.
        split; [exists x, (end_time b)|exists y, (start_time b)];
          repeat split; done.
Qed.


Lemma truthy_nonempty s : Js.truthy (Some s) = true <-> s <> "".
Proof. destruct s; cbn; split; intros; done. Qed.

(** Past the validation steps, [handleSubmit] is decided by the guard and
    by the store. *)
Lemma handleSubmit_validated w f d u startTime endTime :
  Create.user w = Some u ->
  Create.session_ok w = true ->
  Js.trim (Create.title_field f) <> "" ->
  Create.startTime_field f = Some startTime ->
  Create.endTime_field f = Some endTime ->
  Create.check_error w = false ->
  Dates.ge (Create.Date_local w startTime) (Create.Date_local w endTime)
    = false ->
  Create.handleSubmit w f d =
  if Create.overlaps (Create.Date_local w startTime)
       (Create.Date_local w endTime) (Create.existing_blocks u d)
  then Create.reject Create.Overlap d
  else if Create.insert_error w ||
          negb (Create.check_end_after_start
                  (Create.insertData u w f startTime endTime))
  then Create.reject Create.InsertFailed d
  else
    {| Create.shown := Create.Redirected;
       Create.store :=
         {| quiet_blocks :=
              quiet_blocks d ++ [Create.insertData u w f startTime endTime];
            profiles := profiles d |} |}.
Proof.
  intros Hu Hs Ht Hst Hen Hck Hlt. unfold Create.handleSubmit.
  rewrite Hu, Hs, Hst, Hen, Hck, Hlt. cbn [negb].
  apply truthy_nonempty in Ht. by rewrite Ht.
Qed.

Lemma stored_after w f u startTime endTime :
  Create.check_end_after_start (Create.insertData u w f startTime endTime)
  = true <-> startTime < endTime.
Proof.
  unfold Create.check_end_after_start, Create.insertData.
  cbn [start_time end_time]. unfold Create.formatISTForStorage.
  rewrite Z.gtb_ltb, Z.ltb_lt. lia.
Qed.




(** ** The reminder flag *)

Lemma counted_sent_iff w ps now b :
  counted_sent w ps now b = true <->
  in_window now b = true /\
  (exists e p, contact w ps b = Some (e, p) /\
               sends w ps now b = Some (render b e p)) /\
  transport_fails w b = false /\
  mark_error w (id b) = false.
Proof.
  unfold counted_sent, sends.
  destruct (in_window now b); [|by intuition].
  destruct (contact w ps b) as [[e p]|].
  - destruct (transport_fails w b), (mark_error w (id b)); cbn [negb];
      split; try (by intuition); intros _; repeat split; eauto.
  - split; [done|]. by intros (_ & (e & p & ? & _) & _).
Qed.

Lemma delivered_iff w now d i m :
  fetch_error w = false ->
  (In (i, m) (delivered (sweep w now d)) <->
   exists b, In b (activeBlocks now d) /\ id b = i /\
             sends w (profiles d) now b = Some m).
Proof.
  intros Hf. rewrite sweep_delivered by done. rewrite in_flat_map.
  unfold delivery. split.
  - intros (b & Hb & Hin). exists b. split; [done|].
    destruct (sends w (profiles d) now b); [|done].
    destruct Hin as [[= <- <-]|[]]. done.
  - intros (b & Hb & <- & Hs). exists b. split; [done|].
    rewrite Hs. by left.
Qed.

Section Transitions.
Import Schedule.

Lemma nth_fire k i d :
  nth_error (quiet_blocks (fire i d)) k =
  option_map (effect i d) (nth_error (quiet_blocks d) k).
Proof. rewrite fire_rows. apply nth_error_map. Qed.

Lemma reminded_no_transitions k invs : forall d b,
  nth_error (quiet_blocks d) k = Some b ->
  reminder_sent b = true ->
  transitions k d invs = 0%nat.
Proof.
  induction invs as [|i invs IH]; intros d b Hk Hb; [done|].
  cbn [transitions]. unfold flips. rewrite nth_fire, Hk.
  cbn [option_map]. rewrite Hb. cbn [negb andb].
  rewrite (IH (fire i d) (effect i d b)); [done| |].
  - by rewrite nth_fire, Hk.
  - by apply effect_reminded.
Qed.

Lemma transitions_at_most_once k invs : forall d,
  (transitions k d invs <= 1)%nat.
Proof.
  induction invs as [|i invs IH]; intros d; cbn [transitions]; [lia|].
  destruct (flips k d (fire i d)) eqn:E.
  - unfold flips in E.
    destruct (nth_error (quiet_blocks d) k) as [b|]; [|done].
    destruct (nth_error (quiet_blocks (fire i d)) k) as [b'|] eqn:E';
      [|done].
    apply andb_true_iff in E as [_ E].
    rewrite (reminded_no_transitions k invs (fire i d) b') by done. lia.
  - specialize (IH (fire i d)). lia.
Qed.

End Transitions.

(** C4.  (1) A row whose [reminder_sent] goes from false to true in a sweep
    belongs to a block for which [sendReminderEmail] returned during that
    sweep.  (2) A row inserted by the creation page has [reminder_sent]
    false, and a rejected submit inserts nothing.  (3) No invocation turns
    [reminder_sent] from true to false.  (4) Along any sequence of
    invocations a row makes the false-to-true transition at most once. *)
Theorem reminder_sent_discipline :
  (forall env w now req d,
     NoDup (map id (quiet_blocks d)) ->
     Forall2
       (fun b b' =>
          reminder_sent b = false -> reminder_sent b' = true ->
          transport_fails w b = false /\
          exists m, In (id b, m) (delivered (GET env w now req d)))
       (quiet_blocks d) (quiet_blocks (store (GET env w now req d)))) /\
  (forall w f d,
     match Create.shown (Create.handleSubmit w f d) with
     | Create.Redirected =>
         exists b,
           quiet_blocks (Create.store (Create.handleSubmit w f d)) =
           quiet_blocks d ++ [b] /\ reminder_sent b = false
     | Create.Rejected _ => Create.store (Create.handleSubmit w f d) = d
     end) /\
  (forall env w now req d,
     Forall2 (fun b b' => reminder_sent b = true -> reminder_sent b' = true)
       (quiet_blocks d) (quiet_blocks (store (GET env w now req d)))) /\
  (forall k d invs, (Schedule.transitions k d invs <= 1)%nat).
Proof.
  split; [|split; [|split]].
  - intros env w now req d Hnd.
    pose (i := {| Schedule.at_env := env; Schedule.at_world := w;
                  Schedule.at_now := now; Schedule.at_request := req |}).
    change (store (GET env w now req d)) with (Schedule.fire i d).
    rewrite fire_rows. apply Forall2_map_self. intros b Hb Hfalse Htrue.
    unfold Schedule.effect in Htrue. cbn [i Schedule.at_env Schedule.at_world
      Schedule.at_now Schedule.at_request] in Htrue.
    destruct (rejects env req) eqn:Hrej; cbn [orb] in Htrue; [congruence|].
    destruct (fetch_error w) eqn:Hf; [congruence|].
    unfold swept in Htrue.
    destruct (mem_id (id b) (marked_ids w now d)) eqn:Hm.
    + apply marked_selected in Hm as (Hc & Hfut & Hsent); [|done..].
      apply counted_sent_iff in Hsent as (_ & (e & p & _ & Hs) & Hok & _).
      split; [done|]. exists (render b e p).
      rewrite GET_admitted by done. apply delivered_iff; [done|].
      exists b. split; [|done]. by apply active_iff.
    + destruct (negb _ && _); cbn in Htrue; congruence.
  - intros w f d. unfold Create.handleSubmit, Create.reject.
    destruct (Create.user w); [|done].
    destruct (negb (Create.session_ok w)); [done|].
    destruct (negb (Js.truthy _)); [done|].
    destruct (Create.startTime_field f); [|done].
    destruct (Create.endTime_field f); [|done].
    destruct (Dates.ge _ _); [done|].
    destruct (Create.check_error w); [done|].
    destruct (Create.overlaps _ _ _); [done|].
    destruct (Create.insert_error w || _); [done|].
    cbn. eexists. split; reflexivity.
  - intros env w now req d.
    pose (i := {| Schedule.at_env := env; Schedule.at_world := w;
                  Schedule.at_now := now; Schedule.at_request := req |}).
    change (store (GET env w now req d)) with (Schedule.fire i d).
    rewrite fire_rows. apply Forall2_map_self. intros b _.
    apply effect_reminded.
  - intros k d invs. apply transitions_at_most_once.
Qed.

Lemma reminder_sent_discipline_witness :
  let a := block "a" (70 * minute) (130 * minute) in
  let now := 60 * minute in
  transport_fails fine a = false /\
  exists m, In (id a, m) (delivered (GET open_env fine now anyone (db [a]))).
Proof.
  intros a now.
  assert (Hnd : NoDup (map id (quiet_blocks (db [a])))).
  { apply NoDup_cons; [intros []|apply NoDup_nil]. }
  destruct reminder_sent_discipline as (Hset & _).
  specialize (Hset open_env fine now anyone (db [a]) Hnd).
  change (quiet_blocks (store (GET open_env fine now anyone (db [a]))))
    with [set_reminder_sent true a] in Hset.
  cbn [db quiet_blocks] in Hset.
  inversion Hset as [|b b' l l' Hrow Hrest]; subst b b' l l'.
  apply Hrow; reflexivity.
Defined.

(** ** A second sweep at the same instant *)

Lemma sweep_ids w now d :
  fetch_error w = false ->
  map id (quiet_blocks (store (sweep w now d))) = map id (quiet_blocks d).
Proof.
  intros Hf. rewrite sweep_rows_map by done. rewrite map_map.
  apply map_ext. intros r. apply swept_id.
Qed.

Lemma contact_None_iff w ps b :
  contact w ps b = None <->
  forall p, fetch_profile w ps (user_id b) = Some p ->
            Js.truthy (email p) = false.
Proof.
  unfold contact. destruct (fetch_profile w ps (user_id b)) as [p|].
  - destruct (email p) as [e|] eqn:E.
    + destruct (Js.truthy (Some e)) eqn:T.
      * split; [done|]. intros H. specialize (H p eq_refl). congruence.
      * split; [|done]. intros _ ? [= <-]. congruence.
    + split; [|done]. intros _ ? [= <-]. by rewrite E.
  - split; [|done]. by intros _ ?.
Qed.

Lemma counted_sent_false w ps now b :
  in_window now b = true ->
  counted_sent w ps now b = false ->
  contact w ps b = None \/ transport_fails w b = true \/
  mark_error w (id b) = true.
Proof.
  unfold counted_sent, sends. intros ->.
  destruct (contact w ps b) as [[e p]|]; [|by left].
  destruct (transport_fails w b); [by right; left|].
  destruct (mark_error w (id b)); [by right; right|done].
Qed.

(** A row that is still a candidate after a sweep is a row the sweep did
    not touch. *)
Lemma candidate_after w now d c :
  fetch_error w = false ->
  In c (quiet_blocks (store (sweep w now d))) ->
  candidate c = true ->
  In c (quiet_blocks d) /\ mem_id (id c) (marked_ids w now d) = false.
Proof.
  intros Hf Hc Hcand. rewrite sweep_rows_map in Hc by done.
  apply in_map_iff in Hc as (b & <- & Hb).
  apply candidate_iff in Hcand as [Hact Hrem].
  unfold swept in *.
  destruct (mem_id (id b) (marked_ids w now d)) eqn:Hm.
  - by destruct (negb _ && _).
  - destruct (negb _ && _); [done|]. done.
Qed.

(** C5, as the code has it.  Once a block's [reminder_sent] is true after
    a first sweep, a second sweep at the same instant does not dispatch for
    it: the row no longer passes the candidate query.  The blocks the
    second sweep does dispatch for are blocks the first sweep dispatched
    for and left with [reminder_sent] false: the owner's contact was not
    resolved, the transport threw, or the mail went out and the update
    recording it failed. *)
Theorem second_sweep_same_instant env w1 w2 now req d :
  rejects env req = false ->
  fetch_error w1 = false ->
  fetch_error w2 = false ->
  NoDup (map id (quiet_blocks d)) ->
  let first := GET env w1 now req d in
  let second := GET env w2 now req (store first) in
  (forall b b',
     In b (quiet_blocks d) ->
     In b' (quiet_blocks (store first)) -> id b' = id b ->
     reminder_sent b' = true ->
     candidate b' = false /\
     ~ In (LogReady (id b)) (logged second) /\
     forall m, ~ In (id b, m) (delivered second)) /\
  (forall i,
     In (LogReady i) (logged second) ->
     exists b,
       In b (quiet_blocks d) /\ id b = i /\ candidate b = true /\
       In (LogReady i) (logged first) /\
       In b (quiet_blocks (store first)) /\
       ((forall p, fetch_profile w1 (profiles d) (user_id b) = Some p ->
                   Js.truthy (email p) = false) \/
        transport_fails w1 b = true \/
        mark_error w1 (id b) = true)).
Proof.
  intros Hauth Hf1 Hf2 Hnd first second.
  unfold second, first. rewrite !GET_admitted by done.
  assert (Hnd' : NoDup (map id (quiet_blocks (store (sweep w1 now d))))).
  { by rewrite sweep_ids. }
  split.
  - intros b b' Hb Hb' Hid Hrem.
    assert (Hnot : forall c,
              In c (activeBlocks now (store (sweep w1 now d))) ->
              id c = id b -> False).
    { intros c Hc Hcid. apply active_iff in Hc as (Hc & Hcand & _).
      assert (c = b') as ->.
      { apply (same_id_same_row _ _ _ Hnd' Hb' Hc). congruence. }
      apply candidate_iff in Hcand as [_ ?]. congruence. }
    split; [|split].
    + unfold candidate. rewrite Hrem. apply andb_false_r.
    + rewrite sweep_ready by done. intros (c & Hc & _ & Hcid). eauto.
    + intros m. rewrite delivered_iff by done.
      intros (c & Hc & Hcid & _). eauto.
  - intros i Hready. apply sweep_ready in Hready as (c & Hc & Hwin & <-);
      [|done].
    apply active_iff in Hc as (Hc & Hcand & Hfut).
    pose proof Hc as Hc'.
    apply candidate_after in Hc as [Hc Hm]; [|done..].
    exists c. repeat split; try done.
    + apply sweep_ready; [done|]. exists c.
      split; [by apply active_iff|done].
    + assert (Hs : counted_sent w1 (profiles d) now c = false).
      { apply not_true_iff_false. intros Hs.
        apply not_true_iff_false in Hm. apply Hm.
        by apply marked_selected. }
      apply counted_sent_false in Hs as [Hs|Hs]; [|by right|done].
      left. by apply contact_None_iff.
Qed.

Lemma second_sweep_same_instant_witness :
  let a := block "a" (70 * minute) (130 * minute) in
  let now := 60 * minute in
  let first := GET open_env fine now anyone (db [a]) in
  let second := GET open_env fine now anyone (store first) in
  In (id a, render a "alice@example.org" alice) (delivered first) /\
  ~ In (LogReady (id a)) (logged second).
Proof.
  intros a now first second. split; [by left|].
  assert (Hnd : NoDup (map id (quiet_blocks (db [a])))).
  { apply NoDup_cons; [intros []|apply NoDup_nil]. }
  destruct (second_sweep_same_instant open_env fine fine now anyone (db [a])
              eq_refl eq_refl eq_refl Hnd) as [Hdone _].
  apply (Hdone a (set_reminder_sent true a)).
  - by left.
  - by left.
  - reflexivity.
  - reflexivity.
Defined.

(** C5 as stated fails in its last clause: a block whose mail the first
    sweep delivered, and whose [reminder_sent] update then failed, is
    dispatched again by a second sweep at the same instant, although its
    previous dispatch did not fail. *)
Lemma second_sweep_same_instant_counterexample :
  let a := block "a" (70 * minute) (130 * minute) in
  let now := 60 * minute in
  let first := GET open_env mark_broken now anyone (db [a]) in
  let second := GET open_env mark_broken now anyone (store first) in
  transport_fails mark_broken a = false /\
  delivered first = [(id a, render a "alice@example.org" alice)] /\
  In (LogReady (id a)) (logged second) /\
  delivered second = [(id a, render a "alice@example.org" alice)].
Proof. cbv zeta. repeat split; try reflexivity. by left. Qed.

(** ** Failures *)

(** C6.  When the candidate query fails, the invocation answers 500 with
    an error payload; nothing was written to the store and no mail was
    sent. *)
Theorem fetch_failure_aborts env w now req d :
  rejects env req = false ->
  fetch_error w = true ->
  let r := GET env w now req d in
  status (answer r) = 500 /\
  body (answer r) = JObj [("error", JStr "Failed to fetch quiet blocks")] /\
  store r = d /\
  delivered r = [] /\
  logged r = [ErrFetch].
Proof.
  intros Hauth Hf. cbv zeta. rewrite GET_admitted by done.
  unfold sweep. rewrite Hf. done.
Qed.

Lemma fetch_failure_aborts_witness :
  let a := block "a" (70 * minute) (130 * minute) in
  let r := GET open_env fetch_broken (60 * minute) anyone (db [a]) in
  status (answer r) = 500 /\ store r = db [a] /\ delivered r = [].
Proof.
  intros a r.
  destruct (fetch_failure_aborts open_env fetch_broken (60 * minute) anyone
              (db [a]) eq_refl eq_refl) as (H1 & _ & H2 & H3 & _).
  exact (conj H1 (conj H2 H3)).
Defined.

Lemma live_not_expired now b :
  in_future_not_expired now b = true -> is_expired now b = false.
Proof.
  intros H. apply in_future_not_expired_iff in H.
  apply not_true_iff_false. rewrite is_expired_iff. lia.
Qed.

(** What the sweep does to a row that reaches the loop. *)
Lemma swept_live w now d b :
  NoDup (map id (quiet_blocks d)) ->
  In b (quiet_blocks d) ->
  candidate b = true ->
  in_future_not_expired now b = true ->
  swept w now d b =
  if counted_sent w (profiles d) now b then set_reminder_sent true b else b.
Proof.
  intros Hnd Hb Hcand Hfut. unfold swept.
  assert (mem_id (id b) (map id (expiredBlocks now d)) = false) as ->.
  { apply not_true_iff_false. rewrite expired_selected by done.
    rewrite (live_not_expired now b) by done. by intros [_ ?]. }
  rewrite andb_false_r.
  destruct (counted_sent w (profiles d) now b) eqn:Hs.
  - by rewrite (proj2 (marked_selected w now d b Hnd Hb)).
  - assert (mem_id (id b) (marked_ids w now d) = false) as ->; [|done].
    apply not_true_iff_false. rewrite marked_selected by done.
    intros (_ & _ & ?). congruence.
Qed.

Lemma row_after w now d b :
  fetch_error w = false ->
  In b (quiet_blocks d) ->
  In (swept w now d b) (quiet_blocks (store (sweep w now d))).
Proof.
  intros Hf Hb. rewrite sweep_rows_map by done. by apply in_map.
Qed.





(** ** A reminder delivered but not recorded *)



(** ** The answer *)

Lemma counted_error_iff w ps now b :
  counted_error w ps now b = true <->
  in_window now b = true /\
  (exists p e, fetch_profile w ps (user_id b) = Some p /\
               email p = Some e /\ e <> "") /\
  (transport_fails w b = true \/ mark_error w (id b) = true).
Proof.
  unfold counted_error, contact.
  rewrite andb_true_iff.
  destruct (fetch_profile w ps (user_id b)) as [[[e|] n]|]; cbn [email].
  - destruct (Js.truthy (Some e)) eqn:T.
    + apply truthy_nonempty in T. rewrite orb_true_iff. split.
      * intros [? ?]. repeat split; eauto.
      * intros (? & _ & ?). done.
    + split; [by intros [_ ?]|]. intros (_ & (p' & e' & [= <-] & [= <-] & Hne) & _).
      apply truthy_nonempty in Hne. cbn [email] in Hne. congruence.
  - split; [by intros [_ ?]|]. by intros (_ & (p' & e' & [= <-] & ? & _) & _).
  - split; [by intros [_ ?]|]. by intros (_ & (p' & e' & ? & _) & _).
Qed.

Lemma counted_sent_world w ps now b :
  counted_sent w ps now b = true <->
  in_window now b = true /\
  (exists p e, fetch_profile w ps (user_id b) = Some p /\
               email p = Some e /\ e <> "") /\
  transport_fails w b = false /\ mark_error w (id b) = false.
Proof.
  unfold counted_sent, sends, contact.
  destruct (in_window now b); [|by intuition].
  destruct (fetch_profile w ps (user_id b)) as [[[e|] n]|]; cbn [email].
  - destruct (Js.truthy (Some e)) eqn:T.
    + apply truthy_nonempty in T.
      destruct (transport_fails w b), (mark_error w (id b)); cbn [negb];
        split; try (by intuition); intros _; repeat split; eauto.
    + split; [done|]. intros (_ & (p' & e' & [= <-] & [= <-] & Hne) & _).
      apply truthy_nonempty in Hne. cbn [email] in Hne. congruence.
  - split; [done|]. by intros (_ & (p' & e' & [= <-] & ? & _) & _).
  - split; [done|]. by intros (_ & (p' & e' & ? & _) & _).
Qed.

(** ** The authorization gate *)

Lemma prefix_iff n : forall s,
  String.prefix n s = true <-> exists post, s = (n ++ post)%string.
Proof.
  induction n as [|c n IH]; intros [|c' s];
    cbn [String.prefix String.append].
  - split; [|done]. intros _. by exists "".
  - split; [|done]. intros _. by exists (String c' s).
  - split; [done|]. by intros (post & ?).
  - destruct (Ascii.ascii_dec c c') as [<-|Hne].
    + rewrite IH. split.
      * intros (post & ->). by exists post.
      * intros (post & [= ->]). by exists post.
    + split; [done|]. intros (post & [= <- _]). done.
Qed.

(** [includes] is the substring test. *)
Lemma includes_iff n : forall s,
  Js.includes s n = true <-> exists pre post, s = (pre ++ n ++ post)%string.
Proof.
  induction s as [|c s IH]; cbn [Js.includes]; rewrite orb_true_iff.
  - rewrite prefix_iff. split.
    + intros [(post & H)|?]; [|done]. by exists "", post.
    + intros (pre & post & H). left. destruct pre; [by exists post|done].
  - rewrite prefix_iff, IH. split.
    + intros [(post & H)|(pre & post & ->)].
      * by exists "", post.
      * by exists (String c pre), post.
    + intros ([|c' pre] & post & H).
      * left. by exists post.
      * right. injection H as <- ->. by exists pre, post.
Qed.

Lemma bearer_matches_iff h secret :
  bearer_matches h secret = true <-> h = Some ("Bearer " ++ secret)%string.
Proof.
  unfold bearer_matches. destruct h as [h|].
  - rewrite String.eqb_eq. split; [by intros ->|by intros [= ->]].
  - done.
Qed.

Lemma is_production_iff env :
  is_production env = true <-> NODE_ENV env = Some "production".
Proof.
  unfold is_production. destruct (NODE_ENV env) as [v|].
  - rewrite String.eqb_eq. split; [by intros ->|by intros [= ->]].
  - done.
Qed.

Lemma rejects_iff env req :
  rejects env req = true <->
  exists secret,
    CRON_SECRET env = Some secret /\ secret <> "" /\
    authorization req <> Some ("Bearer " ++ secret)%string /\
    NODE_ENV env = Some "production" /\
    isKnownCronService (user_agent req) = false.
Proof.
  unfold rejects. destruct (CRON_SECRET env) as [secret|].
  - destruct (Js.truthy (Some secret)) eqn:T; cbn [andb].
    + apply truthy_nonempty in T.
      destruct (bearer_matches (authorization req) secret) eqn:B; cbn [negb].
      * apply bearer_matches_iff in B. split; [done|].
        intros (s & [= <-] & _ & H & _). done.
      * rewrite andb_true_iff, negb_true_iff, is_production_iff. split.
        -- intros [? ?]. exists secret. repeat split; try done.
           rewrite <- bearer_matches_iff. congruence.
        -- intros (s & [= <-] & _ & _ & ? & ?). done.
    + split; [done|]. intros (s & [= <-] & Hne & _).
      apply truthy_nonempty in Hne. congruence.
  - split; [done|]. by intros (s & ? & _).
Qed.

Lemma unauthorized_iff env w now req d :
  status (answer (GET env w now req d)) = 401 <-> rejects env req = true.
Proof.
  unfold GET. destruct (rejects env req); [done|].
  split; [|done]. unfold sweep.
  by destruct (fetch_error w); [|destruct (len _ =? 0)].
Qed.

(** C10.  With a secret configured and not presented as a bearer token, the
    request is answered 401, before any sweep step, exactly when the
    deployment is production and the user agent is not one of the known
    scheduling services.  A request that presents the secret, a deployment
    that is not production, a known scheduling service, and a deployment
    without a secret each go on to the sweep.  [POST] is [GET]. *)
Theorem authorization_gate env w now req d :
  let r := GET env w now req d in
  let production := NODE_ENV env = Some "production" in
  let known := isKnownCronService (user_agent req) = true in
  (forall secret,
     CRON_SECRET env = Some secret -> secret <> "" ->
     authorization req <> Some ("Bearer " ++ secret)%string ->
     (status (answer r) = 401 <-> production /\ ~ known) /\
     (status (answer r) = 401 ->
      body (answer r) = JObj [("error", JStr "Unauthorized")] /\
      store r = d /\ delivered r = []) /\
     (status (answer r) <> 401 -> r = sweep w now d)) /\
  (forall secret,
     CRON_SECRET env = Some secret ->
     authorization req = Some ("Bearer " ++ secret)%string ->
     r = sweep w now d) /\
  (~ production -> r = sweep w now d) /\
  (known -> r = sweep w now d) /\
  (CRON_SECRET env = None \/ CRON_SECRET env = Some "" -> r = sweep w now d) /\
  (known <->
   exists ua, user_agent req = Some ua /\
     exists pre name post,
       ua = (pre ++ name ++ post)%string /\
       (name = "cron-job.org" \/ name = "cron-job" \/ name = "UptimeRobot")) /\
  POST env w now req d = r.
Proof.
  cbv zeta.
  assert (Hgo : rejects env req = false -> GET env w now req d = sweep w now d)
    by apply GET_admitted.
  assert (Hno : forall P : Prop,
            (rejects env req = true -> P -> False) -> P ->
            GET env w now req d = sweep w now d).
  { intros P HP p. apply Hgo. apply not_true_iff_false. intros H.
    by apply (HP H). }
  split; [|split; [|split; [|split; [|split; [|split]]]]].
  - intros secret Hsec Hne Hauth. split; [|split].
    + rewrite unauthorized_iff, rejects_iff. split.
      * intros (s & _ & _ & _ & Hp & Hk). split; [done|]. congruence.
      * intros [Hp Hk]. exists secret. repeat split; try done.
        by apply not_true_iff_false.
    + rewrite unauthorized_iff. intros Hrej. unfold GET. by rewrite Hrej.
    + rewrite unauthorized_iff. intros Hrej. apply Hgo.
      by apply not_true_iff_false.
  - intros secret Hsec Hauth.
    apply (Hno (authorization req = Some ("Bearer " ++ secret)%string)); [|done].
    intros Hrej. apply rejects_iff in Hrej as (s & Hs & _ & H & _).
    congruence.
  - apply Hno. intros Hrej. apply rejects_iff in Hrej as (s & _ & _ & _ & H & _).
    tauto.
  - apply Hno. intros Hrej. apply rejects_iff in Hrej as (s & _ & _ & _ & _ & H).
    congruence.
  - apply Hno. intros Hrej. apply rejects_iff in Hrej as (s & Hs & Hne & _).
    intros [H|H]; congruence.
  - unfold isKnownCronService. destruct (user_agent req) as [ua|].
    + rewrite !orb_true_iff, !includes_iff. split.
      * intros [[(pre & post & H)|(pre & post & H)]|(pre & post & H)];
          exists ua; (split; [done|]); exists pre; eauto 7.
      * intros (ua' & [= <-] & pre & name & post & H & [->|[->| ->]]); eauto 6.
    + split; [done|]. by intros (ua & ? & _).
  - reflexivity.
Qed.

Lemma authorization_gate_witness :
  let env := {| CRON_SECRET := Some "s3cret"; NODE_ENV := Some "production" |} in
  let req := {| authorization := Some "Bearer guess";
                user_agent := Some "curl/8.0" |} in
  let a := block "a" (70 * minute) (130 * minute) in
  let r := GET env fine (60 * minute) req (db [a]) in
  status (answer r) = 401 /\ store r = db [a] /\ delivered r = [].
Proof.
  intros env req a r.
  assert (Hne : "s3cret" <> "") by discriminate.
  assert (Hauth : authorization req <> Some ("Bearer " ++ "s3cret")%string)
    by discriminate.
  destruct (authorization_gate env fine (60 * minute) req (db [a]))
    as (Hgate & _).
  destruct (Hgate "s3cret" eq_refl Hne Hauth) as (Hiff & Hstop & _).
  assert (Hst : status (answer r) = 401).
  { apply Hiff. split; [reflexivity|]. discriminate. }
  split; [exact Hst|]. apply Hstop, Hst.
Defined.

(** * Further properties of the cron endpoint *)

Section Keeps.
Import Schedule Shape.

Lemma swept_same w now d r : same_block r (swept w now d r).
Proof.
  unfold swept, same_block.
  by destruct (negb _ && _), (mem_id (id r) (marked_ids w now d)).
Qed.

Lemma effect_same i d r : same_block r (effect i d r).
Proof.
  unfold effect. destruct (_ || _); [by unfold same_block|apply swept_same].
Qed.

Lemma fire_profiles i d : profiles (fire i d) = profiles d.
Proof.
  unfold fire, GET. destruct (rejects _ _); [done|].
  destruct (fetch_error (at_world i)) eqn:E.
  - unfold sweep. by rewrite E.
  - by apply sweep_profiles.
Qed.

Lemma same_block_trans a b c :
  same_block a b -> same_block b c -> same_block a c.
Proof. unfold same_block. intuition congruence. Qed.

(** X1.  However many times the endpoint is invoked, and whatever the
    store and the transport answer, the table keeps its rows: their number,
    their order, and each row's id, owner, title, start and end.  Only the
    two flags can change.  The profiles are never written. *)
Theorem invocations_keep_blocks d invs :
  Forall2 same_block (quiet_blocks d) (quiet_blocks (run d invs)) /\
  length (quiet_blocks (run d invs)) = length (quiet_blocks d) /\
  profiles (run d invs) = profiles d.
Proof.
  assert (H : Forall2 same_block (quiet_blocks d) (quiet_blocks (run d invs))
              /\ profiles (run d invs) = profiles d).
  { revert d. induction invs as [|i invs IH]; intros d.
    - cbn. split; [|done]. apply Forall2_same. by unfold same_block.
    - cbn [run fold_left]. destruct (IH (fire i d)) as [Hrows Hps].
      unfold run in Hrows, Hps. split.
      + rewrite fire_rows in Hrows at 1. apply Forall2_map_left in Hrows.
        eapply Forall2_impl; [|exact Hrows].
        intros b b' Hb. exact (same_block_trans _ _ _ (effect_same i d b) Hb).
      + by rewrite Hps, fire_profiles. }
  destruct H as [Hrows Hps]. split; [done|]. split; [|done].
  symmetry. by eapply Forall2_length.
Qed.

End Keeps.

(** The second half of the window test follows from the first. *)
Lemma window_implies_future now b :
  timeDiff now b <= fiveMinutesInMs -> now < start_time b.
Proof. unfold timeDiff, ten_minutes, fiveMinutesInMs. lia. Qed.

Lemma in_window_bounds now b :
  in_window now b = true <->
  now + 5 * 60 * 1000 <= start_time b <= now + 15 * 60 * 1000.
Proof. rewrite in_window_iff. lia. Qed.

Section NotReady.

Variables (w : world) (ps : gmap string profile) (now : Z).

Lemma process_block_not_ready s b i reason :
  In (LogNotReady i reason) (console (process_block w ps now s b)) ->
  In (LogNotReady i reason) (console s) \/ reason = "Too early/late".
Proof.
  unfold process_block. destruct (in_window now b) eqn:Hwin.
  - iteration; rewrite ?in_app_iff; cbn [In]; intuition congruence.
  - cbn [console say]. rewrite in_app_iff. cbn [In].
    intros [H|[H|[]]]; [by left|]. right.
    destruct (timeDiff now b >? fiveMinutesInMs) eqn:E; [congruence|].
    rewrite Z.gtb_ltb in E. apply Z.ltb_ge in E.
    apply window_implies_future in E as Hlt.
    unfold in_window in Hwin.
    apply andb_false_iff in Hwin as [Hwin|Hwin].
    + apply Z.leb_gt in Hwin. lia.
    + apply Z.ltb_ge in Hwin. lia.
Qed.

Lemma run_loop_not_ready l i reason : forall s,
  In (LogNotReady i reason) (console (run_loop w ps now s l)) ->
  In (LogNotReady i reason) (console s) \/ reason = "Too early/late".
Proof.
  induction l as [|b l IH]; intros s; [by left|].
  rewrite run_loop_cons. intros H. apply IH in H as [H|H]; [|by right].
  by apply process_block_not_ready in H.
Qed.

End NotReady.

(** X2.  The loop's explanation "Block already started" is never logged:
    an instant within five minutes of ten minutes before the start is
    already at least five minutes before the start, so the second half of
    the test of line 151 cannot fail on its own. *)
Theorem already_started_never_logged env w now req d i :
  ~ In (LogNotReady i "Block already started") (logged (GET env w now req d)).
Proof.
  unfold GET. destruct (rejects env req).
  { cbn. intuition congruence. }
  unfold sweep. destruct (fetch_error w).
  { cbn. intuition congruence. }
  assert (Hd : forall l,
            ~ In (LogNotReady i "Block already started")
                (console (deactivate w l (start_state d)))).
  { intros l. unfold deactivate.
    destruct (len l >? 0), (deactivate_error w); cbn; intuition congruence. }
  destruct (len _ =? 0); cbn [logged]; [apply Hd|].
  intros H. apply run_loop_not_ready in H as [H|H]; [by apply Hd in H|done].
Qed.

(** ** Deliveries *)

Lemma sends_inv w ps now b m :
  sends w ps now b = Some m ->
  in_window now b = true /\
  transport_fails w b = false /\
  exists p e, fetch_profile w ps (user_id b) = Some p /\
              email p = Some e /\ e <> "" /\ m = render b e p.
Proof.
  unfold sends, contact. destruct (in_window now b); [|done].
  destruct (fetch_profile w ps (user_id b)) as [[[e|] n]|]; cbn [email];
    [|done..].
  destruct (Js.truthy (Some e)) eqn:T; [|done].
  destruct (transport_fails w b); [done|]. intros [= <-].
  apply truthy_nonempty in T. repeat split; eauto 6.
Qed.

Lemma GET_delivered_inv env w now req d i m :
  In (i, m) (delivered (GET env w now req d)) ->
  rejects env req = false /\ fetch_error w = false /\
  exists b, In b (activeBlocks now d) /\ id b = i /\
            sends w (profiles d) now b = Some m.
Proof.
  unfold GET. destruct (rejects env req); [done|].
  destruct (fetch_error w) eqn:Hf.
  { unfold sweep. by rewrite Hf. }
  intros H. by apply delivered_iff in H.
Qed.

(** X3.  Every mail the endpoint sends is for a row of the table that is
    active and not yet reminded, goes to the address in the profile of that
    row's owner, carries the row's title, start and end, and is sent when
    the start lies between five and fifteen minutes ahead. *)
Theorem mail_goes_to_owner env w now req d i m :
  In (i, m) (delivered (GET env w now req d)) ->
  exists b p,
    In b (quiet_blocks d) /\ id b = i /\
    is_active b = true /\ reminder_sent b = false /\
    profiles d !! user_id b = Some p /\ email p = Some (to m) /\
    blockName m = title b /\
    startTime m = start_time b /\ endTime m = end_time b /\
    now + 5 * 60 * 1000 <= start_time b <= now + 15 * 60 * 1000.
Proof.
  intros H. apply GET_delivered_inv in H as (_ & _ & b & Hb & Hid & Hs).
  apply active_iff in Hb as (Hb & Hcand & _).
  apply candidate_iff in Hcand as [Hact Hrem].
  apply sends_inv in Hs as (Hwin & _ & p & e & Hp & He & _ & ->).
  apply in_window_bounds in Hwin.
  exists b, p. repeat split; try done; try lia.
  unfold fetch_profile in Hp. by destruct (profile_error w (user_id b)).
Qed.

Lemma mail_goes_to_owner_witness :
  let a := block "a" (70 * minute) (130 * minute) in
  exists b p,
    In b [a] /\ profiles (db [a]) !! user_id b = Some p /\
    email p = Some "alice@example.org" /\
    60 * minute + 5 * 60 * 1000 <= start_time b.
Proof.
  intros a.
  destruct (mail_goes_to_owner open_env fine (60 * minute) anyone (db [a])
              "a" (render a "alice@example.org" alice) (or_introl eq_refl))
    as (b & p & Hb & _ & _ & _ & Hp & He & _ & _ & _ & Hlo & _).
  exists b, p. split; [exact Hb|]. split; [exact Hp|]. split; [exact He|].
  exact Hlo.
Defined.

Lemma NoDup_ids_filter (f : quiet_block -> bool) l :
  NoDup (map id l) -> NoDup (map id (List.filter f l)).
Proof.
  induction l as [|x l IH]; [done|]. cbn [map List.filter].
  intros Hnd. apply NoDup_cons_iff in Hnd as [Hx Hnd].
  destruct (f x); [|by apply IH]. cbn [map]. apply NoDup_cons; [|by apply IH].
  intros Hin. apply Hx. apply in_map_iff in Hin as (y & Hy & Hin).
  apply filter_In in Hin as [Hin _]. apply in_map_iff. by exists y.
Qed.

Lemma delivered_ids w ps now l :
  map fst (flat_map (delivery w ps now) l) =
  map id (List.filter (fun b => bool_decide (is_Some (sends w ps now b))) l).
Proof.
  induction l as [|b l IH]; [done|]. cbn [flat_map List.filter].
  rewrite map_app, IH. unfold delivery.
  destruct (sends w ps now b); by cbn.
Qed.

(** X4.  With distinct row ids, one invocation sends at most one mail per
    block. *)
Theorem one_mail_per_block env w now req d :
  NoDup (map id (quiet_blocks d)) ->
  NoDup (map fst (delivered (GET env w now req d))).
Proof.
  intros Hnd. unfold GET. destruct (rejects env req); [constructor|].
  destruct (fetch_error w) eqn:Hf.
  { unfold sweep. rewrite Hf. constructor. }
  rewrite sweep_delivered, delivered_ids by done.
  unfold activeBlocks. by do 3 apply NoDup_ids_filter.
Qed.

Lemma one_mail_per_block_witness :
  let a := block "a" (70 * minute) (130 * minute) in
  let c := block "c" (72 * minute) (100 * minute) in
  NoDup (map fst (delivered (GET open_env fine (60 * minute) anyone
                               (db [a; c])))).
Proof.
  intros a c. apply one_mail_per_block.
  apply NoDup_cons; [intros [[=]|[]]|].
  apply NoDup_cons; [intros []|apply NoDup_nil].
Defined.

(** ** Counters *)

Lemma filter_length_le {A} (f : A -> bool) l :
  (length (List.filter f l) <= length l)%nat.
Proof.
  induction l as [|x l IH]; [done|]. cbn [List.filter].
  destruct (f x); cbn [length]; lia.
Qed.

Lemma filter_length_mono {A} (f g : A -> bool) l :
  (forall x, f x = true -> g x = true) ->
  (length (List.filter f l) <= length (List.filter g l))%nat.
Proof.
  intros H. induction l as [|x l IH]; [done|]. cbn [List.filter].
  destruct (f x) eqn:E.
  - rewrite (H x E). cbn [length]. lia.
  - destruct (g x); cbn [length]; lia.
Qed.

Lemma filter_length_split {A} (f g h : A -> bool) l :
  (forall x, h x = true -> f x = true \/ g x = true) ->
  (length (List.filter h l) <=
   length (List.filter f l) + length (List.filter g l))%nat.
Proof.
  intros H. induction l as [|x l IH]; [done|]. cbn [List.filter].
  destruct (h x) eqn:E.
  - destruct (H x E) as [-> | ->]; destruct (f x), (g x); cbn [length]; lia.
  - destruct (f x), (g x); cbn [length]; lia.
Qed.

Lemma filter_length_apart {A} (f g : A -> bool) l :
  (forall x, f x = true -> g x = true -> False) ->
  (length (List.filter f l) + length (List.filter g l) <= length l)%nat.
Proof.
  intros H. induction l as [|x l IH]; [done|]. cbn [List.filter].
  destruct (f x) eqn:Ef, (g x) eqn:Eg; cbn [length]; try lia.
  by destruct (H x).
Qed.

Lemma delivered_length w ps now l :
  length (flat_map (delivery w ps now) l) =
  length (List.filter (fun b => bool_decide (is_Some (sends w ps now b))) l).
Proof. by rewrite <- (length_map fst), delivered_ids, length_map. Qed.

Lemma sent_or_error w ps now b :
  (counted_sent w ps now b = true -> is_Some (sends w ps now b)) /\
  (is_Some (sends w ps now b) ->
   counted_sent w ps now b = true \/ counted_error w ps now b = true) /\
  (counted_sent w ps now b = true -> counted_error w ps now b = true -> False).
Proof.
  unfold counted_sent, counted_error, sends.
  destruct (in_window now b); cbn [andb];
    [destruct (contact w ps b) as [[e p]|];
       [destruct (transport_fails w b), (mark_error w (id b))|]|];
    cbn; (split; [|split]); try done; try (intros [? [=]]); eauto.
Qed.

(** X5.  In a summary that reports [processed], [sent] and [errors], the
    counters are consistent with each other and with the mails that went
    out: every block counted as sent had its mail delivered, every delivered
    mail is counted as sent or as an error, and [sent + errors] never
    exceeds [processed]. *)
Theorem counters_are_consistent env w now req d p s e :
  let r := GET env w now req d in
  field "processed" (body (answer r)) = Some (JNum p) ->
  field "sent" (body (answer r)) = Some (JNum s) ->
  field "errors" (body (answer r)) = Some (JNum e) ->
  0 <= s /\ 0 <= e /\
  s <= len (delivered r) /\ len (delivered r) <= s + e /\
  s + e <= p.
Proof.
  cbv zeta. unfold GET. destruct (rejects env req); [done|].
  destruct (fetch_error w) eqn:Hf.
  { unfold sweep. by rewrite Hf. }
  destruct (activeBlocks now d) as [|x l] eqn:E.
  { by rewrite sweep_idle. }
  assert (Hne : activeBlocks now d <> []) by (by rewrite E).
  rewrite sweep_summary, sweep_delivered by done.
  cbn [field List.find fst snd String.eqb Ascii.eqb Bool.eqb fmap option_fmap
       option_map].
  intros [= <-] [= <-] [= <-].
  set (ps := profiles d). set (act := activeBlocks now d).
  pose proof (filter_length_mono (counted_sent w ps now)
    (fun b => bool_decide (is_Some (sends w ps now b))) act) as H1.
  pose proof (filter_length_split (counted_sent w ps now)
    (counted_error w ps now)
    (fun b => bool_decide (is_Some (sends w ps now b))) act) as H2.
  pose proof (filter_length_apart (counted_sent w ps now)
    (counted_error w ps now) act) as H3.
  pose proof (filter_length_le (in_future_not_expired now)
    (List.filter candidate (quiet_blocks d))) as H4.
  fold (activeBlocks now d) in H4. fold act in H4.
  unfold len. rewrite delivered_length.
  assert ((length (List.filter (counted_sent w ps now) act) <=
           length (List.filter
                     (fun b => bool_decide (is_Some (sends w ps now b))) act))
          %nat).
  { apply H1. intros b Hb. apply bool_decide_eq_true_2.
    by apply (sent_or_error w ps now b). }
  assert ((length (List.filter
                     (fun b => bool_decide (is_Some (sends w ps now b))) act)
           <= length (List.filter (counted_sent w ps now) act) +
              length (List.filter (counted_error w ps now) act))%nat).
  { apply H2. intros b Hb. apply bool_decide_eq_true_1 in Hb.
    by apply (sent_or_error w ps now b). }
  assert ((length (List.filter (counted_sent w ps now) act) +
           length (List.filter (counted_error w ps now) act)
           <= length act)%nat).
  { apply H3. intros b. apply (sent_or_error w ps now b). }
  lia.
Qed.

Lemma counters_are_consistent_witness :
  let a := block "a" (70 * minute) (130 * minute) in
  let r := GET open_env mark_broken (60 * minute) anyone (db [a]) in
  0 <= 0 /\ 0 <= 1 /\ 0 <= len (delivered r) /\ len (delivered r) <= 0 + 1 /\
  0 + 1 <= 1.
Proof.
  intros a r.
  exact (counters_are_consistent open_env mark_broken (60 * minute) anyone
           (db [a]) 1 0 1 eq_refl eq_refl eq_refl).
Defined.

(** ** Rows the endpoint leaves alone *)

(** X6.  With distinct row ids, a row that is inactive or already reminded
    comes out of an invocation exactly as it went in.  In particular an
    active block whose reminder was sent is not deactivated by the endpoint
    once it has ended. *)
Theorem non_candidates_untouched env w now req d :
  NoDup (map id (quiet_blocks d)) ->
  Forall2 (fun b b' => candidate b = false -> b' = b)
    (quiet_blocks d) (quiet_blocks (store (GET env w now req d))).
Proof.
  intros Hnd.
  pose (i := {| Schedule.at_env := env; Schedule.at_world := w;
                Schedule.at_now := now; Schedule.at_request := req |}).
  change (store (GET env w now req d)) with (Schedule.fire i d).
  rewrite fire_rows. apply Forall2_map_self. intros b Hb Hcand.
  unfold Schedule.effect. destruct (_ || _); [done|].
  cbn [i Schedule.at_world Schedule.at_now]. unfold swept.
  assert (mem_id (id b) (map id (expiredBlocks now d)) = false) as ->.
  { apply not_true_iff_false. rewrite expired_selected by done.
    intros [? _]. congruence. }
  assert (mem_id (id b) (marked_ids w now d) = false) as ->.
  { apply not_true_iff_false. rewrite marked_selected by done.
    intros [? _]. congruence. }
  by rewrite andb_false_r.
Qed.

Lemma non_candidates_untouched_witness :
  let a := set_reminder_sent true (block "a" 0 (30 * minute)) in
  quiet_blocks (store (GET open_env fine (60 * minute) anyone (db [a]))) = [a].
Proof.
  intros a.
  assert (Hnd : NoDup (map id (quiet_blocks (db [a])))).
  { apply NoDup_cons; [intros []|apply NoDup_nil]. }
  pose proof (non_candidates_untouched open_env fine (60 * minute) anyone
                (db [a]) Hnd) as H.
  remember (quiet_blocks (store (GET open_env fine (60 * minute) anyone
                                   (db [a])))) as after eqn:Hafter.
  cbn [db quiet_blocks] in H.
  inversion H as [|b b' l l' Hrow Hrest]; subst b l.
  inversion Hrest; subst l'.
  f_equal. apply Hrow. reflexivity.
Defined.

(** ** The greeting and the known services *)

Lemma split_head_spec sep : forall s,
  (exists rest,
     s = (Js.split_head sep s ++ rest)%string /\
     (rest = "" \/ exists t, rest = String sep t)) /\
  Js.includes (Js.split_head sep s) (String sep "") = false.
Proof.
  induction s as [|c s [(rest & Hs & Hrest) Hno]]; cbn [Js.split_head].
  - split; [|done]. exists "". split; [done|by left].
  - destruct (Ascii.eqb c sep) eqn:E.
    + apply Ascii.eqb_eq in E as ->. split; [|done].
      exists (String sep s). split; [done|]. right. by exists s.
    + split.
      * exists rest. split; [|done].
        change (String c s = String c (Js.split_head sep s ++ rest)%string).
        by f_equal.
      * cbn [Js.includes String.prefix]. rewrite Hno, orb_false_r.
        destruct (Ascii.ascii_dec sep c) as [->|Hne]; [|done].
        by rewrite Ascii.eqb_refl in E.
Qed.

(** X7.  The mail for a block goes to the resolved address, and its
    greeting is never empty: it is the profile's full name when there is
    one, otherwise what precedes the first [@] of the address, otherwise
    ["User"]. *)
Theorem greeting_never_empty b e p :
  let m := render b e p in
  let local_part := Js.split_head "@" e in
  to m = e /\
  userName m <> "" /\
  (forall n, full_name p = Some n -> n <> "" -> userName m = n) /\
  (Js.truthy (full_name p) = false -> local_part <> "" ->
   userName m = local_part) /\
  (Js.truthy (full_name p) = false -> local_part = "" ->
   userName m = "User") /\
  (exists rest, e = (local_part ++ rest)%string /\
                (rest = "" \/ exists t, rest = String "@" t)) /\
  Js.includes local_part "@" = false.
Proof.
  cbv zeta. unfold render. cbn [to userName]. unfold Js.or_else.
  split; [done|].
  destruct (split_head_spec "@" e) as [Hsplit Hno].
  destruct (full_name p) as [[|c n]|] eqn:Hn; cbn [Js.truthy];
    destruct (Js.split_head "@" e) as [|c' l] eqn:Hl; cbn [Js.truthy default];
    repeat split; try done; try (by intros ? [= <-]); try (by intros ? [=]).
Qed.

Lemma cron_job_org_included ua :
  Js.includes ua "cron-job.org" = true -> Js.includes ua "cron-job" = true.
Proof.
  intros E. apply includes_iff in E as (pre & post & ->).
  apply includes_iff. by exists pre, (".org" ++ post)%string.
Qed.

(** X8.  An agent is taken for a known scheduling service as soon as its
    name contains [cron-job] or [UptimeRobot]; the separate test for
    [cron-job.org] adds nothing. *)
Theorem known_service_is_two_tests ua :
  isKnownCronService (Some ua) =
  Js.includes ua "cron-job" || Js.includes ua "UptimeRobot".
Proof.
  unfold isKnownCronService.
  destruct (Js.includes ua "cron-job.org") eqn:E; [|done].
  by rewrite (cron_job_org_included ua E).
Qed.

(** * The second cron endpoint *)

Lemma rejects2_iff env req :
  Cron2.rejects env req = true <->
  exists secret,
    CRON_SECRET env = Some secret /\ secret <> "" /\
    authorization req <> Some ("Bearer " ++ secret)%string /\
    NODE_ENV env = Some "production" /\
    Cron2.isKnownCronService (user_agent req) = false.
Proof.
  unfold Cron2.rejects. destruct (CRON_SECRET env) as [secret|].
  - destruct (Js.truthy (Some secret)) eqn:T; cbn [andb].
    + apply truthy_nonempty in T.
      destruct (bearer_matches (authorization req) secret) eqn:B; cbn [negb].
      * apply bearer_matches_iff in B. split; [done|].
        intros (s & [= <-] & _ & H & _). done.
      * rewrite andb_true_iff, negb_true_iff, is_production_iff. split.
        -- intros [? ?]. exists secret. repeat split; try done.
           rewrite <- bearer_matches_iff. congruence.
        -- intros (s & [= <-] & _ & _ & ? & ?). done.
    + split; [done|]. intros (s & [= <-] & Hne & _).
      apply truthy_nonempty in Hne. congruence.
  - split; [done|]. by intros (s & ? & _).
Qed.

Lemma known2_iff agent :
  Cron2.isKnownCronService agent = true <->
  exists ua, agent = Some ua /\ Js.includes ua "cron-job" = true.
Proof.
  unfold Cron2.isKnownCronService. destruct agent as [ua|].
  - rewrite orb_true_iff. split.
    + intros [H|H]; exists ua; split; try done.
      by apply cron_job_org_included.
    + intros (? & [= <-] & H). by right.
  - split; [done|]. by intros (? & ? & _).
Qed.

Lemma known_iff agent :
  isKnownCronService agent = true <->
  exists ua, agent = Some ua /\
    (Js.includes ua "cron-job" = true \/ Js.includes ua "UptimeRobot" = true).
Proof.
  unfold isKnownCronService. destruct agent as [ua|].
  - rewrite !orb_true_iff. split.
    + intros [[H|H]|H]; exists ua; split; try done; auto.
      left. by apply cron_job_org_included.
    + intros (? & [= <-] & [H|H]); auto.
  - split; [done|]. by intros (? & ? & _).
Qed.

(** X9.  The second endpoint turns away every request the first one turns
    away, and besides those exactly the requests that the first admits on
    the strength of an [UptimeRobot] agent alone. *)
Theorem second_gate_is_stricter env req :
  Cron2.rejects env req = true <->
  rejects env req = true \/
  exists secret ua,
    CRON_SECRET env = Some secret /\ secret <> "" /\
    authorization req <> Some ("Bearer " ++ secret)%string /\
    NODE_ENV env = Some "production" /\
    user_agent req = Some ua /\
    Js.includes ua "UptimeRobot" = true /\
    Js.includes ua "cron-job" = false.
Proof.
  rewrite rejects2_iff, rejects_iff. split.
  - intros (secret & Hs & Hne & Ha & Hp & Hk).
    destruct (isKnownCronService (user_agent req)) eqn:K.
    + right. apply known_iff in K as (ua & Hua & [K|K]).
      * assert (Cron2.isKnownCronService (user_agent req) = true);
          [|congruence].
        apply known2_iff. by exists ua.
      * exists secret, ua. repeat split; try done.
        apply not_true_iff_false. intros K'.
        assert (Cron2.isKnownCronService (user_agent req) = true);
          [|congruence].
        apply known2_iff. by exists ua.
    + left. by exists secret.
  - intros [(secret & Hs & Hne & Ha & Hp & Hk)|
            (secret & ua & Hs & Hne & Ha & Hp & Hua & _ & Hk)];
      exists secret; repeat split; try done;
      apply not_true_iff_false; intros K;
      apply known2_iff in K as (ua' & Hua' & K).
    + assert (isKnownCronService (user_agent req) = true); [|congruence].
      apply known_iff. exists ua'. auto.
    + congruence.
Qed.

Section Sweep2.

Variables (w : world) (now : Z) (d : database).
Hypothesis fetched : fetch_error w = false.

Lemma deactivate_rows_any l :
  rows (deactivate w l (start_state d)) =
  if deactivate_error w then quiet_blocks d
  else update_in (set_is_active false) (map id l) (quiet_blocks d).
Proof.
  unfold deactivate. destruct (len l >? 0) eqn:E.
  - by destruct (deactivate_error w).
  - apply len_pos in E. rewrite E. cbn [map start_state rows].
    rewrite update_in_nil. by destruct (deactivate_error w).
Qed.

Lemma deactivate_rest_any l :
  outbox (deactivate w l (start_state d)) = [] /\
  sentCount (deactivate w l (start_state d)) = 0 /\
  errorCount (deactivate w l (start_state d)) = 0.
Proof.
  unfold deactivate. by destruct (len l >? 0), (deactivate_error w).
Qed.

Lemma active2 :
  List.filter (Cron2.not_expired now)
    (List.filter (Cron2.candidate now) (quiet_blocks d)) = activeBlocks now d.
Proof.
  unfold activeBlocks. rewrite !filter_filter_and. apply filter_ext.
  intros b. unfold Cron2.candidate, Cron2.not_expired, candidate,
    in_future_not_expired. cbn zeta. by rewrite andb_assoc.
Qed.

Lemma sweep2_rows :
  quiet_blocks (store (Cron2.sweep w now d)) =
  update_in (set_reminder_sent true) (marked_ids w now d)
    (if deactivate_error w then quiet_blocks d
     else update_in (set_is_active false)
            (map id (List.filter (is_expired now)
                       (List.filter (Cron2.candidate now) (quiet_blocks d))))
            (quiet_blocks d)).
Proof using fetched.
  unfold Cron2.sweep, marked_ids. rewrite fetched, active2.
  destruct (len (activeBlocks now d) =? 0) eqn:E; cbn [store quiet_blocks].
  - apply len_zero in E. rewrite E. cbn [List.filter map].
    by rewrite update_in_nil, deactivate_rows_any.
  - by rewrite run_loop_rows, deactivate_rows_any.
Qed.

Lemma sweep2_delivered :
  delivered (Cron2.sweep w now d) = delivered (sweep w now d).
Proof using fetched.
  rewrite sweep_delivered by done.
  unfold Cron2.sweep. rewrite fetched, active2.
  destruct (deactivate_rest_any
              (List.filter (is_expired now)
                 (List.filter (Cron2.candidate now) (quiet_blocks d))))
    as (Hout & _ & _).
  destruct (len (activeBlocks now d) =? 0) eqn:E; cbn [delivered].
  - apply len_zero in E. by rewrite E.
  - by rewrite run_loop_outbox, Hout.
Qed.

Lemma sweep2_counts k :
  k = "sent" \/ k = "errors" ->
  field k (body (answer (Cron2.sweep w now d))) =
  field k (body (answer (sweep w now d))).
Proof using fetched.
  intros Hk.
  destruct (deactivate_rest_any
              (List.filter (is_expired now)
                 (List.filter (Cron2.candidate now) (quiet_blocks d))))
    as (_ & Hsent & Herr).
  unfold Cron2.sweep. rewrite fetched, active2.
  destruct (len (activeBlocks now d) =? 0) eqn:E.
  - apply len_zero in E. rewrite sweep_idle by done.
    by destruct Hk as [-> | ->].
  - assert (Hne : activeBlocks now d <> []).
    { intros H. apply len_zero in H. congruence. }
    rewrite sweep_summary by done.
    cbn [answer body NextResponse_json].
    rewrite run_loop_sentCount, run_loop_errorCount, Hsent, Herr.
    by destruct Hk as [-> | ->].
Qed.

End Sweep2.

Lemma filter_none {A} (f : A -> bool) l :
  Forall (fun x => f x = false) l -> List.filter f l = [].
Proof.
  induction 1 as [|x l Hx _ IH]; [done|]. cbn [List.filter]. by rewrite Hx.
Qed.

Lemma Forall2_map_both {A B} (R : B -> B -> Prop) (f g : A -> B) l :
  (forall x, In x l -> R (f x) (g x)) -> Forall2 R (map f l) (map g l).
Proof.
  induction l as [|x l IH]; intros H; cbn [map]; constructor.
  - apply H. by left.
  - apply IH. intros y Hy. apply H. by right.
Qed.

Lemma rejects_then_rejects2 env req :
  rejects env req = true -> Cron2.rejects env req = true.
Proof.
  rewrite rejects_iff, rejects2_iff.
  intros (secret & Hs & Hne & Ha & Hp & Hk). exists secret.
  repeat split; try done. apply not_true_iff_false. intros K.
  apply known2_iff in K as (ua & Hua & K).
  assert (isKnownCronService (user_agent req) = true); [|congruence].
  apply known_iff. exists ua. auto.
Qed.

Lemma second_expired_none now d :
  Forall (fun b => end_time b > start_time b) (quiet_blocks d) ->
  List.filter (is_expired now)
    (List.filter (Cron2.candidate now) (quiet_blocks d)) = [].
Proof.
  intros Hwf. rewrite filter_filter_and. apply filter_none.
  eapply Forall_impl; [|exact Hwf]. intros b Hb. cbn beta in *.
  apply not_true_iff_false. unfold Cron2.candidate.
  rewrite !andb_true_iff, is_expired_iff, Z.gtb_ltb, Z.ltb_lt.
  intros [[_ H1] [_ H2]]. lia.
Qed.

(** X10.  On a table whose rows end after they start, the second endpoint
    never deactivates anything: its candidate query only returns rows that
    start after [now], none of which can have ended, so the rows it would
    deactivate are none and every row keeps its [is_active]. *)
Theorem second_endpoint_never_deactivates env w now req d :
  Forall (fun b => end_time b > start_time b) (quiet_blocks d) ->
  List.filter (is_expired now)
    (List.filter (Cron2.candidate now) (quiet_blocks d)) = [] /\
  Forall2 (fun b b' => is_active b' = is_active b)
    (quiet_blocks d) (quiet_blocks (store (Cron2.GET env w now req d))).
Proof.
  intros Hwf. split; [by apply second_expired_none|].
  unfold Cron2.GET. destruct (Cron2.rejects env req).
  { by apply Forall2_same. }
  destruct (fetch_error w) eqn:Hf.
  { unfold Cron2.sweep. rewrite Hf. by apply Forall2_same. }
  rewrite sweep2_rows, second_expired_none by done.
  cbn [map]. rewrite update_in_nil.
  assert (Hrows : (if deactivate_error w then quiet_blocks d
                   else quiet_blocks d) = quiet_blocks d)
    by (by destruct (deactivate_error w)).
  rewrite Hrows. unfold update_in. apply Forall2_map_self.
  intros b _. by destruct (mem_id (id b) (marked_ids w now d)).
Qed.

Lemma second_endpoint_never_deactivates_witness :
  let c := block "c" 0 (59 * minute) in
  Forall (fun r => is_active r = true)
    (quiet_blocks (store (Cron2.GET open_env fine (60 * minute) anyone
                            (db [c])))).
Proof.
  intros c.
  assert (Hwf : Forall (fun b => end_time b > start_time b)
                  (quiet_blocks (db [c]))).
  { constructor; [vm_compute; reflexivity|constructor]. }
  destruct (second_endpoint_never_deactivates open_env fine (60 * minute)
              anyone (db [c]) Hwf) as [_ H].
  remember (quiet_blocks (store (Cron2.GET open_env fine (60 * minute) anyone
                                   (db [c])))) as after eqn:Hafter.
  cbn [db quiet_blocks] in H.
  inversion H as [|b b' l l' Hrow Hrest]; subst b l.
  inversion Hrest; subst l'.
  constructor; [|constructor]. by rewrite Hrow.
Defined.

(** X11.  Whenever the second endpoint admits a request, so does the
    first, and on the same table with the same answers from store and
    transport the two send the same mails, report the same status and the
    same [sent] and [errors], and leave the same [reminder_sent] on every
    row. *)
Theorem endpoints_agree_on_reminders env w now req d :
  Cron2.rejects env req = false ->
  let r1 := GET env w now req d in
  let r2 := Cron2.GET env w now req d in
  rejects env req = false /\
  delivered r2 = delivered r1 /\
  status (answer r2) = status (answer r1) /\
  field "sent" (body (answer r2)) = field "sent" (body (answer r1)) /\
  field "errors" (body (answer r2)) = field "errors" (body (answer r1)) /\
  Forall2
    (fun b1 b2 => Shape.same_block b1 b2 /\ reminder_sent b2 = reminder_sent b1)
    (quiet_blocks (store r1)) (quiet_blocks (store r2)).
Proof.
  intros Hadm. cbv zeta.
  assert (Hadm1 : rejects env req = false).
  { apply not_true_iff_false. intros H.
    apply rejects_then_rejects2 in H. congruence. }
  split; [done|]. unfold GET, Cron2.GET. rewrite Hadm, Hadm1.
  destruct (fetch_error w) eqn:Hf.
  { unfold sweep, Cron2.sweep. rewrite Hf. cbn.
    repeat split; try done. apply Forall2_same. by unfold Shape.same_block. }
  split; [by apply sweep2_delivered|].
  split.
  { rewrite sweep_status by done. unfold Cron2.sweep. rewrite Hf.
    by destruct (len _ =? 0). }
  split; [apply sweep2_counts; auto|].
  split; [apply sweep2_counts; auto|].
  rewrite sweep_rows_map, sweep2_rows by done.
  assert (Hmap : forall ids,
    update_in (set_reminder_sent true) (marked_ids w now d)
      (if deactivate_error w then quiet_blocks d
       else update_in (set_is_active false) ids (quiet_blocks d))
    = map (fun r =>
             let r1 := if negb (deactivate_error w) && mem_id (id r) ids
                       then set_is_active false r else r in
             if mem_id (id r) (marked_ids w now d)
             then set_reminder_sent true r1 else r1) (quiet_blocks d)).
  { intros ids. unfold update_in.
    destruct (deactivate_error w); cbn [negb andb]; [done|].
    rewrite map_map. apply map_ext. intros r. by destruct (mem_id (id r) ids). }
  rewrite Hmap. apply Forall2_map_both. intros b _. unfold swept.
  cbv zeta. unfold Shape.same_block.
  by destruct (negb _ && mem_id (id b) (map id (expiredBlocks now d))),
       (negb _ && mem_id (id b) _),
       (mem_id (id b) (marked_ids w now d)).
Qed.

Lemma endpoints_agree_on_reminders_witness :
  let a := block "a" (70 * minute) (130 * minute) in
  delivered (Cron2.GET open_env fine (60 * minute) anyone (db [a])) =
  delivered (GET open_env fine (60 * minute) anyone (db [a])).
Proof.
  intros a.
  destruct (endpoints_agree_on_reminders open_env fine (60 * minute) anyone
              (db [a]) eq_refl) as (_ & H & _).
  exact H.
Defined.

(** * The creation page *)

Lemma trim_end_head l :
  Js.trim_end l = [] \/
  exists c r, Js.trim_end l = c :: r /\ Js.is_space c = false.
Proof.
  assert (H : forall n l, (length l <= n)%nat ->
            Js.trim_end l = [] \/
            exists c r, Js.trim_end l = c :: r /\ Js.is_space c = false).
  { clear l. induction n as [|n IH]; intros l Hn.
    - destruct l; [by left|]. cbn in Hn. lia.
    - destruct l as [|c1 r1]; [by left|]. cbn [Js.trim_end].
      cbn [length] in Hn.
      destruct (Js.is_space c1) eqn:E1; [apply IH; lia|].
      destruct r1 as [|c2 r2]; [right; by exists c1, []|].
      cbn [length] in Hn.
      destruct (Js.is_space2 c2 c1); [apply IH; lia|].
      destruct r2 as [|c3 r3]; [right; by exists c1, [c2]|].
      cbn [length] in Hn.
      destruct (Js.is_space3 c3 c2 c1); [apply IH; lia|].
      right. by exists c1, (c2 :: c3 :: r3). }
  by apply (H (length l)).
Qed.

Lemma ink_is_not_blank c : Js.is_space c = false -> Shape.is_blank c = false.
Proof.
  unfold Shape.is_blank. intros H. apply not_true_iff_false. intros E.
  apply Ascii.eqb_eq in E as ->. by vm_compute in H.
Qed.

Lemma ltrim_keeps_ink l :
  (exists c, In c l /\ Shape.is_blank c = false) ->
  exists c, In c (Shape.ltrim l) /\ Shape.is_blank c = false.
Proof.
  induction l as [|x l IH]; intros (c & Hc & Hink); [done|].
  cbn [Shape.ltrim]. destruct (Shape.is_blank x) eqn:E.
  - apply IH. exists c. split; [|done]. destruct Hc as [->|Hc]; [|done].
    congruence.
  - by exists c.
Qed.

(** A title that survives [trim] in the browser survives [trim] in the
    store. *)
Lemma trimmed_title_passes_check s :
  Js.trim s <> "" -> (String.length (Shape.sql_trim (Js.trim s)) > 0)%nat.
Proof.
  unfold Js.trim, Shape.sql_trim.
  set (t := Js.trim_end (rev (Js.trim_start (list_ascii_of_string s)))).
  intros Hne. rewrite list_ascii_of_string_of_list_ascii.
  destruct (trim_end_head (rev (Js.trim_start (list_ascii_of_string s))))
    as [Ht|(c & r & Ht & Hc)]; fold t in Ht.
  { rewrite Ht in Hne. done. }
  assert (Hink : exists c, In c (rev t) /\ Shape.is_blank c = false).
  { exists c. split; [|by apply ink_is_not_blank].
    apply in_rev. rewrite rev_involutive, Ht. by left. }
  apply ltrim_keeps_ink in Hink as (c1 & Hc1 & Hink1).
  assert (Hink2 : exists c, In c (rev (Shape.ltrim (rev t))) /\
                            Shape.is_blank c = false).
  { exists c1. split; [|done]. by apply in_rev; rewrite rev_involutive. }
  apply ltrim_keeps_ink in Hink2 as (c2 & Hc2 & _).
  apply in_rev in Hc2.
  destruct (rev (Shape.ltrim (rev (Shape.ltrim (rev t))))); [done|].
  cbn. lia.
Qed.

(** A title made of a no-break space and a space is empty after [trim]. *)
Lemma blank_title_is_refused :
  let f := {| Create.title_field :=
                String (ascii_of_nat 194) (String (ascii_of_nat 160) " ");
              Create.startTime_field := Some 0;
              Create.endTime_field := Some minute |} in
  Create.shown (Create.handleSubmit student f (db [])) =
  Create.Rejected Create.TitleRequired.
Proof. reflexivity. Qed.

(** What a submit that redirects went through. *)
Lemma handleSubmit_redirected w f d :
  Create.shown (Create.handleSubmit w f d) = Create.Redirected ->
  exists u s e,
    Create.user w = Some u /\
    Create.startTime_field f = Some s /\
    Create.endTime_field f = Some e /\
    Js.trim (Create.title_field f) <> "" /\
    Dates.ge (Create.Date_local w s) (Create.Date_local w e) = false /\
    Create.overlaps (Create.Date_local w s) (Create.Date_local w e)
      (Create.existing_blocks u d) = false /\
    s < e /\
    Create.store (Create.handleSubmit w f d) =
      {| quiet_blocks := quiet_blocks d ++ [Create.insertData u w f s e];
         profiles := profiles d |}.
Proof.
  unfold Create.handleSubmit, Create.reject.
  destruct (Create.user w) as [u|]; [|done].
  destruct (negb (Create.session_ok w)); [done|].
  destruct (negb (Js.truthy _)) eqn:T; [done|].
  destruct (Create.startTime_field f) as [s|]; [|done].
  destruct (Create.endTime_field f) as [e|]; [|done].
  destruct (Dates.ge _ _) eqn:G; [done|].
  destruct (Create.check_error w); [done|].
  destruct (Create.overlaps _ _ _) eqn:O; [done|].
  destruct (Create.insert_error w || _) eqn:I; [done|].
  intros _. exists u, s, e. repeat split; try done.
  - apply negb_false_iff in T. by apply truthy_nonempty in T.
  - apply orb_false_iff in I as [_ I]. apply negb_false_iff in I.
    by apply stored_after in I.
Qed.

Lemma handleSubmit_rejected w f d why :
  Create.shown (Create.handleSubmit w f d) = Create.Rejected why ->
  Create.store (Create.handleSubmit w f d) = d.
Proof.
  unfold Create.handleSubmit, Create.reject.
  destruct (Create.user w) as [u|]; [|done].
  destruct (negb (Create.session_ok w)); [done|].
  destruct (negb (Js.truthy _)); [done|].
  destruct (Create.startTime_field f) as [s|]; [|done].
  destruct (Create.endTime_field f) as [e|]; [|done].
  destruct (Dates.ge _ _); [done|].
  destruct (Create.check_error w); [done|].
  destruct (Create.overlaps _ _ _); [done|].
  by destruct (Create.insert_error w || _).
Qed.

(** X12.  A submit that redirects to the dashboard has appended exactly one
    row, owned by the logged-in user, active and not yet reminded, whose
    title is the trimmed title of the form and whose start and end are the
    form's date-times read as Indian Standard Time; that row satisfies both
    CHECK constraints of the table. *)
Theorem submitted_block_is_well_formed w f d :
  Create.shown (Create.handleSubmit w f d) = Create.Redirected ->
  exists u s e b,
    Create.user w = Some u /\
    Create.startTime_field f = Some s /\
    Create.endTime_field f = Some e /\
    Create.store (Create.handleSubmit w f d) =
      {| quiet_blocks := quiet_blocks d ++ [b]; profiles := profiles d |} /\
    id b = Create.new_id w /\ user_id b = u /\
    title b = Js.trim (Create.title_field f) /\
    start_time b = s - Create.ist_offset /\
    end_time b = e - Create.ist_offset /\
    is_active b = true /\ reminder_sent b = false /\
    Shape.well_formed b.
Proof.
  intros H.
  apply handleSubmit_redirected in H
    as (u & s & e & Hu & Hs & He & Ht & _ & _ & Hlt & Hst).
  exists u, s, e, (Create.insertData u w f s e).
  repeat split; try done.
  - cbn. unfold Create.formatISTForStorage. lia.
  - cbn [title Create.insertData]. by apply trimmed_title_passes_check.
Qed.

Lemma submitted_block_is_well_formed_witness :
  exists b,
    Create.store
      (Create.handleSubmit student (entry (60 * minute) (90 * minute)) (db []))
    = db [b] /\
    title b = "Maths" /\ Shape.well_formed b.
Proof.
  destruct (submitted_block_is_well_formed student
              (entry (60 * minute) (90 * minute)) (db []) eq_refl)
    as (u & s & e & b & _ & _ & _ & Hst & _ & _ & Ht & _ & _ & _ & _ & Hwf).
  exists b. split; [exact Hst|]. split; [exact Ht|exact Hwf].
Defined.

Lemma ordpairs_snoc {A} (R : A -> A -> Prop) l b :
  ForallOrdPairs R l -> Forall (fun a => R a b) l ->
  ForallOrdPairs R (l ++ [b]).
Proof.
  induction 1 as [|a l Ha Hl IH]; intros Hb; cbn [app].
  - constructor; constructor.
  - apply Forall_cons_iff in Hb as [Hab Hb]. constructor.
    + apply Forall_app. split; [done|]. by constructor.
    + by apply IH.
Qed.

(** A guard that finds nothing has found every readable block clear of
    the interval it was given. *)
Lemma overlaps_none x y l :
  Create.overlaps (Some x) (Some y) l = false ->
  Forall (fun a => Dates.readable (start_time a) = true ->
                   Dates.readable (end_time a) = true ->
                   end_time a <= x \/ y <= start_time a) l.
Proof.
  intros H. apply Forall_forall. intros a Ha Hs He.
  apply not_true_iff_false in H. rewrite overlaps_iff in H.
  destruct (Z_le_gt_dec (end_time a) x); [by left|].
  destruct (Z_le_gt_dec y (start_time a)); [by right|].
  exfalso. apply H. exists a, x, y. repeat split; try done; lia.
Qed.

(** A guard that finds something has found a block that meets the interval
    it was given, whatever it could read. *)
Lemma overlaps_meets w ws we l :
  Create.overlaps (Create.Date_local w ws) (Create.Date_local w we) l = true ->
  exists a, In a l /\
            ws - Create.tz_offset w ws < end_time a /\
            we - Create.tz_offset w we > start_time a.
Proof.
  intros H. apply overlaps_iff in H
    as (a & x & y & Ha & Hx & Hy & _ & _ & Hlt & Hgt).
  apply Date_local_Some in Hx as [-> _].
  apply Date_local_Some in Hy as [-> _].
  by exists a.
Qed.

Lemma existing_blocks_snoc v d b :
  Create.existing_blocks v
    {| quiet_blocks := quiet_blocks d ++ [b]; profiles := profiles d |} =
  Create.existing_blocks v d ++
  (if String.eqb (user_id b) v && is_active b then [b] else []).
Proof.
  unfold Create.existing_blocks. cbn [quiet_blocks].
  rewrite filter_app. cbn [List.filter].
  by destruct (String.eqb (user_id b) v && is_active b).
Qed.

(** X13.  When the browser's zone is at +05:30 (Indian Standard Time) at
    the form's date-times, these have four-digit years and the timestamps
    of the user's active blocks are readable, the guard does its job: if
    those blocks are pairwise disjoint before a submit, they are pairwise
    disjoint after it, whatever the submit's outcome. *)
Theorem guard_keeps_blocks_apart w f d v :
  (forall t, Create.startTime_field f = Some t ->
             Create.tz_offset w t = Create.ist_offset /\
             Dates.readable t = true) ->
  (forall t, Create.endTime_field f = Some t ->
             Create.tz_offset w t = Create.ist_offset /\
             Dates.readable t = true) ->
  Forall (fun b => Dates.readable (start_time b) = true /\
                   Dates.readable (end_time b) = true)
    (Create.existing_blocks v d) ->
  Shape.no_overlap v d ->
  Shape.no_overlap v (Create.store (Create.handleSubmit w f d)).
Proof.
  intros Hrs Hre Hread Hd.
  destruct (Create.shown (Create.handleSubmit w f d)) as [why|] eqn:E.
  { by rewrite (handleSubmit_rejected w f d why). }
  apply handleSubmit_redirected in E
    as (u & s & e & Hu & Hs & He & Ht & _ & Hno & Hlt & ->).
  unfold Shape.no_overlap. rewrite existing_blocks_snoc.
  cbn [user_id is_active Create.insertData andb].
  rewrite andb_true_r.
  destruct (String.eqb u v) eqn:Huv; [|by rewrite app_nil_r].
  apply String.eqb_eq in Huv as ->.
  apply ordpairs_snoc; [done|].
  destruct (Hrs s Hs) as [Htzs Hreads]. destruct (Hre e He) as [Htze Hreade].
  unfold Create.Date_local in Hno.
  rewrite Hreads, Hreade, Htzs, Htze in Hno.
  apply overlaps_none in Hno.
  apply Forall_forall. intros a Ha.
  pose proof (proj1 (Forall_forall _ _) Hread a Ha) as [Has Hae].
  pose proof (proj1 (Forall_forall _ _) Hno a Ha Has Hae) as Hfree.
  unfold Shape.apart.
  cbn [start_time end_time Create.insertData].
  unfold Create.formatISTForStorage. lia.
Qed.

Lemma guard_keeps_blocks_apart_witness :
  let existing := block "a" 0 (60 * minute) in
  Shape.no_overlap "u1"
    (Create.store
       (Create.handleSubmit student (entry (60 * minute) (90 * minute))
          (db [existing]))).
Proof.
  intros existing.
  apply (guard_keeps_blocks_apart student (entry (60 * minute) (90 * minute))
           (db [existing]) "u1").
  - by intros t [= <-].
  - by intros t [= <-].
  - constructor; [split; reflexivity|constructor].
  - constructor; constructor.
Defined.

(** Conditions under which a submit is sure to redirect. *)
Lemma handleSubmit_admits w f d u ws we :
  Create.user w = Some u ->
  Create.session_ok w = true ->
  Js.trim (Create.title_field f) <> "" ->
  Create.startTime_field f = Some ws ->
  Create.endTime_field f = Some we ->
  Create.check_error w = false ->
  Create.insert_error w = false ->
  ws < we ->
  ws - Create.tz_offset w ws < we - Create.tz_offset w we ->
  Forall (fun a => end_time a <= ws - Create.tz_offset w ws \/
                   we - Create.tz_offset w we <= start_time a)
    (Create.existing_blocks u d) ->
  Create.handleSubmit w f d =
  {| Create.shown := Create.Redirected;
     Create.store :=
       {| quiet_blocks := quiet_blocks d ++ [Create.insertData u w f ws we];
          profiles := profiles d |} |}.
Proof.
  intros Hu Hs Ht Hws Hwe Hck Hins Hlt Hinst Hfree.
  rewrite (handleSubmit_validated w f d u ws we); try done.
  - destruct (Create.overlaps _ _ _) eqn:O.
    + apply overlaps_meets in O as (a & Ha & H1 & H2).
      pose proof (proj1 (Forall_forall _ _) Hfree a Ha) as Hfa.
      cbn beta in Hfa. lia.
    + rewrite Hins. by rewrite (proj2 (stored_after w f u ws we)).
  - apply not_true_iff_false. rewrite Dates_ge_iff.
    intros (x & y & Hx & Hy & Hge).
    apply Date_local_Some in Hx as [-> _].
    apply Date_local_Some in Hy as [-> _]. lia.
Qed.

(** X14.  On a browser whose zone keeps one offset other than +05:30 the
    guard checks an interval shifted against the one it stores, and does
    not keep the blocks disjoint: for every such session with a working
    store there are a table whose active blocks are disjoint and a form
    that is accepted and leaves two overlapping active blocks of the same
    user. *)
Theorem guard_fails_off_ist w u off :
  (forall t, Create.tz_offset w t = off) ->
  off <> Create.ist_offset ->
  Create.user w = Some u ->
  Create.session_ok w = true ->
  Create.check_error w = false ->
  Create.insert_error w = false ->
  exists f d,
    Shape.no_overlap u d /\
    Create.shown (Create.handleSubmit w f d) = Create.Redirected /\
    ~ Shape.no_overlap u (Create.store (Create.handleSubmit w f d)).
Proof.
  intros Hconst Htz Hu Hs Hck Hins.
  set (delta := off - Create.ist_offset).
  set (a := fun len =>
         {| id := "a"; user_id := u; title := "a";
            start_time := 0; end_time := len;
            is_active := true; reminder_sent := false |}).
  set (form := fun s e =>
         {| Create.title_field := "b";
            Create.startTime_field := Some (s + off);
            Create.endTime_field := Some (e + off) |}).
  set (table := fun len =>
         {| quiet_blocks := [a len]; profiles := ∅ |}).
  assert (Hrun : forall len s e,
    s < e -> (len <= s \/ e <= 0) ->
    Create.handleSubmit w (form s e) (table len) =
    {| Create.shown := Create.Redirected;
       Create.store :=
         {| quiet_blocks :=
              [a len;
               Create.insertData u w (form s e) (s + off) (e + off)];
            profiles := ∅ |} |}).
  { intros len s e Hse Hfree.
    rewrite (handleSubmit_admits w (form s e) (table len) u
               (s + off) (e + off));
      try done; try lia.
    - rewrite !Hconst. lia.
    - rewrite !Hconst.
      unfold Create.existing_blocks. cbn [table quiet_blocks List.filter a
        user_id is_active]. rewrite String.eqb_refl. cbn [andb].
      constructor; [|constructor]. cbv [a start_time end_time]. lia. }
  assert (Hbefore : forall len, Shape.no_overlap u (table len)).
  { intros len. unfold Shape.no_overlap, Create.existing_blocks.
    cbn [table quiet_blocks List.filter a user_id is_active].
    rewrite String.eqb_refl. constructor; constructor. }
  assert (Hafter : forall len s e,
    ~ (len <= s + delta \/ e + delta <= 0) ->
    ~ Shape.no_overlap u
        {| quiet_blocks :=
             [a len;
              Create.insertData u w (form s e) (s + off) (e + off)];
           profiles := ∅ |}).
  { intros len s e Hov. unfold Shape.no_overlap, Create.existing_blocks.
    cbn [quiet_blocks List.filter a user_id is_active Create.insertData].
    rewrite String.eqb_refl. cbn [andb].
    intros H. inversion H as [|x l Hx _]; subst.
    apply Forall_cons_iff in Hx as [Hx _]. apply Hov.
    cbv [a Shape.apart Create.insertData start_time end_time
         Create.formatISTForStorage] in Hx.
    unfold delta. lia. }
  destruct (Z_lt_le_dec 0 delta) as [Hpos|Hneg].
  - exists (form (-1) 0), (table (delta + 1)).
    split; [apply Hbefore|]. rewrite Hrun by lia.
    split; [done|]. apply Hafter. lia.
  - assert (delta < 0) by (unfold delta in *; lia).
    exists (form (- delta) (1 - delta)), (table (- delta)).
    split; [apply Hbefore|]. rewrite Hrun by lia.
    split; [done|]. apply Hafter. lia.
Qed.

Lemma guard_fails_off_ist_witness :
  let utc :=
    {| Create.user := Some "u1"; Create.session_ok := true;
       Create.tz_offset := fun _ => 0; Create.check_error := false;
       Create.insert_error := false; Create.new_id := "n1" |} in
  exists f d,
    Shape.no_overlap "u1" d /\
    Create.shown (Create.handleSubmit utc f d) = Create.Redirected /\
    ~ Shape.no_overlap "u1" (Create.store (Create.handleSubmit utc f d)).
Proof.
  intros utc.
  apply (guard_fails_off_ist utc "u1" 0); try reflexivity.
  vm_compute. discriminate.
Defined.

(** * The dashboard page *)

Section Order.
Import Dashboard Shape.

Lemma insert_by_start_In b l x :
  In x (insert_by_start b l) <-> x = b \/ In x l.
Proof.
  induction l as [|y l IH]; cbn [insert_by_start In].
  - intuition.
  - destruct (start_time b <=? start_time y); cbn [In]; [intuition|].
    rewrite IH. intuition.
Qed.

Lemma order_by_start_In l x : In x (order_by_start l) <-> In x l.
Proof.
  induction l as [|y l IH]; [done|]. cbn [order_by_start fold_right In].
  fold (order_by_start l). rewrite insert_by_start_In, IH. intuition.
Qed.

Lemma insert_by_start_sorted b l :
  StronglySorted by_start l -> StronglySorted by_start (insert_by_start b l).
Proof.
  induction 1 as [|y l Hl IH Hy]; cbn [insert_by_start].
  - repeat constructor.
  - destruct (start_time b <=? start_time y) eqn:E.
    + apply Z.leb_le in E. constructor; [by constructor|].
      constructor; [done|]. eapply Forall_impl; [|exact Hy].
      intros z Hz. unfold by_start in *. lia.
    + apply Z.leb_gt in E. constructor; [done|].
      apply Forall_forall. intros z Hz.
      apply insert_by_start_In in Hz as [->|Hz].
      * unfold by_start. lia.
      * by eapply Forall_forall in Hy.
Qed.

Lemma order_by_start_sorted l : StronglySorted by_start (order_by_start l).
Proof.
  induction l as [|y l IH]; [constructor|].
  cbn [order_by_start fold_right]. by apply insert_by_start_sorted.
Qed.

Lemma filter_sorted (f : quiet_block -> bool) l :
  StronglySorted by_start l -> StronglySorted by_start (List.filter f l).
Proof.
  induction 1 as [|y l Hl IH Hy]; [constructor|]. cbn [List.filter].
  destruct (f y); [|done]. constructor; [done|].
  apply Forall_forall. intros z Hz. apply filter_In in Hz as [Hz _].
  by eapply Forall_forall in Hy.
Qed.

Lemma select_own_In u d b :
  In b (select_own u d) <-> In b (quiet_blocks d) /\ user_id b = u.
Proof.
  unfold select_own. by rewrite order_by_start_In, filter_In, String.eqb_eq.
Qed.

End Order.

Lemma status_cases now b :
  (Dashboard.getBlockStatus now b = Dashboard.upcoming <->
   now < start_time b) /\
  (Dashboard.getBlockStatus now b = Dashboard.active <->
   start_time b <= now <= end_time b) /\
  (Dashboard.getBlockStatus now b = Dashboard.completed <->
   start_time b <= now /\ end_time b < now).
Proof.
  unfold Dashboard.getBlockStatus. cbv zeta.
  destruct (now <? start_time b) eqn:E1.
  - apply Z.ltb_lt in E1. repeat split; try done; lia.
  - apply Z.ltb_ge in E1.
    destruct ((now >=? start_time b) && (now <=? end_time b)) eqn:E2.
    + apply andb_true_iff in E2 as [_ E2]. apply Z.leb_le in E2.
      repeat split; try done; lia.
    + apply andb_false_iff in E2 as [E2|E2].
      * rewrite Z.geb_leb in E2. apply Z.leb_gt in E2. lia.
      * apply Z.leb_gt in E2. repeat split; try done; lia.
Qed.

Lemma is_shown_iff now b :
  Dashboard.is_shown now b = true <->
  is_active b = true /\ Dates.readable (end_time b) = true /\
  now <= end_time b.
Proof.
  unfold Dashboard.is_shown. cbv zeta.
  rewrite andb_true_iff, Dates_ge_iff. split.
  - intros [Hact (x & y & Hx & [= <-] & Hge)].
    apply new_Date_Some in Hx as [-> Hx]. repeat split; try done. lia.
  - intros (Hact & Hr & Hle). split; [done|].
    exists (end_time b), now. rewrite new_Date_readable by done.
    repeat split; lia.
Qed.

(** X15.  After a successful fetch the dashboard lists exactly the user's
    own rows that are active and whose end is readable and not before
    [now], in ascending order of start; none of them whose start is
    readable is labelled completed at that instant; the error text is
    cleared. *)
Theorem dashboard_shows_live_blocks w now showLoading st d u :
  Dashboard.user w = Some u ->
  Dashboard.fetch_error w = None ->
  let view :=
    Dashboard.shown (Dashboard.fetchQuietBlocks w now showLoading st d) in
  (forall b,
     In b (Dashboard.quietBlocks view) <->
     In b (quiet_blocks d) /\ user_id b = u /\
     is_active b = true /\
     Dates.readable (end_time b) = true /\ now <= end_time b) /\
  StronglySorted Shape.by_start (Dashboard.quietBlocks view) /\
  (forall b, In b (Dashboard.quietBlocks view) ->
             Dates.readable (start_time b) = true ->
             Dashboard.getBlockStatus now b <> Dashboard.completed) /\
  Dashboard.error view = "" /\
  Dashboard.hasFetched view = true.
Proof.
  intros Hu Hf. cbv zeta. unfold Dashboard.fetchQuietBlocks.
  rewrite Hu, Hf. cbn [Dashboard.shown Dashboard.quietBlocks Dashboard.error
                        Dashboard.hasFetched].
  assert (Hin : forall b,
    In b (List.filter (Dashboard.is_shown now) (Dashboard.select_own u d)) <->
    In b (quiet_blocks d) /\ user_id b = u /\
    is_active b = true /\
    Dates.readable (end_time b) = true /\ now <= end_time b).
  { intros b. rewrite filter_In, select_own_In, is_shown_iff. tauto. }
  split; [exact Hin|]. split; [|split; [|done]].
  - apply filter_sorted, order_by_start_sorted.
  - intros b Hb _. apply Hin in Hb as (_ & _ & _ & _ & Hend).
    destruct (status_cases now b) as (_ & _ & Hc). rewrite Hc. lia.
Qed.

Lemma dashboard_shows_live_blocks_witness :
  let a := block "a" (70 * minute) (130 * minute) in
  let c := block "c" 0 (65 * minute) in
  let gone := block "g" 0 (30 * minute) in
  let far := block "f" (80 * minute) Dates.year_10000 in
  let w := {| Dashboard.user := Some "u1"; Dashboard.fetch_error := None;
              Dashboard.update_error := false |} in
  let st := {| Dashboard.quietBlocks := []; Dashboard.loading := true;
               Dashboard.error := ""; Dashboard.hasFetched := false |} in
  Dashboard.quietBlocks
    (Dashboard.shown
       (Dashboard.fetchQuietBlocks w (60 * minute) true st
          (db [a; gone; far; c])))
  = [c; a] /\
  StronglySorted Shape.by_start [c; a].
Proof.
  intros a c gone far w st. split; [reflexivity|].
  destruct (dashboard_shows_live_blocks w (60 * minute) true st
              (db [a; gone; far; c]) "u1" eq_refl eq_refl)
    as (_ & Hsorted & _).
  exact Hsorted.
Defined.



(** X17.  A fetch that cannot do its work writes nothing: without a user
    the state and the store are returned as they are; when the select fails
    the list on screen is kept and the text shown is the failure's message
    if the failure is an [Error] and ["Failed to fetch quiet blocks"]
    otherwise; when only the update fails the store is unchanged. *)
Theorem dashboard_failure_writes_nothing w now showLoading st d :
  let r := Dashboard.fetchQuietBlocks w now showLoading st d in
  (Dashboard.user w = None ->
   Dashboard.shown r = st /\ Dashboard.store r = d) /\
  (forall err,
     Dashboard.user w <> None -> Dashboard.fetch_error w = Some err ->
     Dashboard.store r = d /\
     Dashboard.quietBlocks (Dashboard.shown r) = Dashboard.quietBlocks st /\
     Dashboard.hasFetched (Dashboard.shown r) = Dashboard.hasFetched st /\
     (Dashboard.is_Error err = true ->
      Dashboard.error (Dashboard.shown r) = Dashboard.message err) /\
     (Dashboard.is_Error err = false ->
      Dashboard.error (Dashboard.shown r) = "Failed to fetch quiet blocks")) /\
  (Dashboard.update_error w = true -> Dashboard.store r = d) /\
  (showLoading = true -> Dashboard.user w <> None ->
   Dashboard.loading (Dashboard.shown r) = false).
Proof.
  cbv zeta. unfold Dashboard.fetchQuietBlocks.
  destruct (Dashboard.user w) as [u|].
  - split; [done|]. destruct (Dashboard.fetch_error w) as [err|].
    + split.
      { intros ? _ [= <-]. cbn. repeat split; try done; by intros ->. }
      split; [done|]. by intros -> _.
    + split; [done|]. split; [|by intros -> _].
      intros ->. cbn [Dashboard.store].
      destruct (Cron.len _ >? 0); by destruct d.
  - split; [done|]. split; [done|]. split; [done|]. by intros _ [].
Qed.

Lemma dashboard_failure_writes_nothing_witness :
  let w := {| Dashboard.user := Some "u1";
              Dashboard.fetch_error :=
                Some {| Dashboard.is_Error := false;
                        Dashboard.message := "JWT expired" |};
              Dashboard.update_error := false |} in
  let a := block "a" (70 * minute) (130 * minute) in
  let st := {| Dashboard.quietBlocks := [a]; Dashboard.loading := true;
               Dashboard.error := ""; Dashboard.hasFetched := true |} in
  let r := Dashboard.fetchQuietBlocks w (60 * minute) true st (db [a]) in
  Dashboard.store r = db [a] /\
  Dashboard.quietBlocks (Dashboard.shown r) = [a] /\
  Dashboard.error (Dashboard.shown r) = "Failed to fetch quiet blocks".
Proof.
  intros w a st r.
  destruct (dashboard_failure_writes_nothing w (60 * minute) true st (db [a]))
    as (_ & H & _).
  assert (Hu : Dashboard.user w <> None) by discriminate.
  destruct (H _ Hu eq_refl) as (H1 & H2 & _ & _ & H4).
  exact (conj H1 (conj H2 (H4 eq_refl))).
Defined.



(** * Repeating and spacing the sweeps *)

Lemma swept_non_candidate w now d b :
  NoDup (map id (quiet_blocks d)) -> In b (quiet_blocks d) ->
  candidate b = false -> swept w now d b = b.
Proof.
  intros Hnd Hb Hcand. unfold swept.
  assert (mem_id (id b) (map id (expiredBlocks now d)) = false) as ->.
  { apply not_true_iff_false. rewrite expired_selected by done.
    intros [? _]. congruence. }
  assert (mem_id (id b) (marked_ids w now d) = false) as ->.
  { apply not_true_iff_false. rewrite marked_selected by done.
    intros [? _]. congruence. }
  by rewrite andb_false_r.
Qed.

Lemma swept_expired w now d b :
  NoDup (map id (quiet_blocks d)) -> In b (quiet_blocks d) ->
  candidate b = true -> is_expired now b = true ->
  swept w now d b = if deactivate_error w then b else set_is_active false b.
Proof.
  intros Hnd Hb Hcand Hexp. unfold swept.
  rewrite (proj2 (expired_selected now d b Hnd Hb) (conj Hcand Hexp)).
  assert (mem_id (id b) (marked_ids w now d) = false) as ->.
  { apply not_true_iff_false. rewrite marked_selected by done.
    intros (_ & Hfut & _). apply live_not_expired in Hfut. congruence. }
  by destruct (deactivate_error w).
Qed.

Lemma swept_neither w now d b :
  NoDup (map id (quiet_blocks d)) -> In b (quiet_blocks d) ->
  is_expired now b = false -> in_future_not_expired now b = false ->
  swept w now d b = b.
Proof.
  intros Hnd Hb Hexp Hfut. unfold swept.
  assert (mem_id (id b) (map id (expiredBlocks now d)) = false) as ->.
  { apply not_true_iff_false. rewrite expired_selected by done.
    intros [_ ?]. congruence. }
  assert (mem_id (id b) (marked_ids w now d) = false) as ->.
  { apply not_true_iff_false. rewrite marked_selected by done.
    intros (_ & ? & _). congruence. }
  by rewrite andb_false_r.
Qed.

Lemma swept_twice w now d b :
  fetch_error w = false ->
  NoDup (map id (quiet_blocks d)) -> In b (quiet_blocks d) ->
  swept w now (store (sweep w now d)) (swept w now d b) = swept w now d b.
Proof.
  intros Hf Hnd Hb.
  set (d1 := store (sweep w now d)).
  assert (Hnd1 : NoDup (map id (quiet_blocks d1))).
  { unfold d1. by rewrite sweep_ids. }
  assert (Hb1 : In (swept w now d b) (quiet_blocks d1)).
  { by apply row_after. }
  assert (Hps : profiles d1 = profiles d) by (by apply sweep_profiles).
  destruct (candidate b) eqn:Hcand.
  - destruct (is_expired now b) eqn:Hexp.
    + rewrite (swept_expired w now d b) in * by done.
      destruct (deactivate_error w) eqn:Hde.
      * rewrite (swept_expired w now d1 b) by done. by rewrite Hde.
      * apply swept_non_candidate; try done;
          unfold candidate; cbn; by rewrite ?andb_false_r.
    + destruct (in_future_not_expired now b) eqn:Hfut.
      * rewrite (swept_live w now d b) in * by done.
        destruct (counted_sent w (profiles d) now b) eqn:Hs.
        -- apply swept_non_candidate; try done;
             unfold candidate; cbn; by rewrite ?andb_false_r.
        -- rewrite (swept_live w now d1 b) by done. by rewrite Hps, Hs.
      * rewrite (swept_neither w now d b) in * by done.
        by apply swept_neither.
  - rewrite (swept_non_candidate w now d b) in * by done.
    by apply swept_non_candidate.
Qed.

(** X19.  With distinct row ids, invoking the endpoint a second time at the
    same instant, with the store and the transport answering as they did
    the first time, leaves the store exactly as the first invocation left
    it. *)
Theorem same_sweep_twice_same_store env w now req d :
  NoDup (map id (quiet_blocks d)) ->
  store (GET env w now req (store (GET env w now req d))) =
  store (GET env w now req d).
Proof.
  intros Hnd. unfold GET. destruct (rejects env req); [done|].
  destruct (fetch_error w) eqn:Hf.
  { unfold sweep. by rewrite Hf. }
  assert (Heq : forall a b : database,
            quiet_blocks a = quiet_blocks b -> profiles a = profiles b ->
            a = b).
  { intros [] []. cbn. by intros -> ->. }
  apply Heq.
  - rewrite (sweep_rows_map w now (store (sweep w now d))) by done.
    rewrite (sweep_rows_map w now d) by done.
    rewrite map_map. apply map_ext_in. intros b Hb.
    exact (swept_twice w now d b Hf Hnd Hb).
  - by rewrite !sweep_profiles.
Qed.

Lemma same_sweep_twice_same_store_witness :
  let a := block "a" (70 * minute) (130 * minute) in
  let c := block "c" 0 (30 * minute) in
  let first := GET open_env (smtp_refuses "a") (60 * minute) anyone
                 (db [a; c]) in
  store (GET open_env (smtp_refuses "a") (60 * minute) anyone (store first)) =
  store first.
Proof.
  intros a c first. apply same_sweep_twice_same_store.
  apply NoDup_cons; [intros [[=]|[]]|].
  apply NoDup_cons; [intros []|apply NoDup_nil].
Defined.

(** X20.  The window in which a block is due is ten minutes wide, both ends
    included.  A trigger that fires at a fixed period, from whatever
    starting instant, is sure to fire inside the window of every block
    exactly when the period is at most ten minutes and one millisecond. *)
Theorem window_is_met_by_period b period :
  0 < period ->
  (forall t0, exists k, in_window (t0 + k * period) b = true) <->
  period <= 10 * 60 * 1000 + 1.
Proof.
  intros Hpos. split.
  - intros H. destruct (Z_le_gt_dec period (10 * 60 * 1000 + 1)); [done|].
    exfalso. destruct (H (start_time b - 5 * 60 * 1000 + 1)) as [k Hk].
    apply in_window_bounds in Hk.
    destruct (Z_le_gt_dec 0 k).
    + assert (0 <= k * period) by nia. lia.
    + assert (k * period <= - period) by nia. lia.
  - intros Hle t0.
    set (x := start_time b - 15 * 60 * 1000 - t0).
    exists ((x + period - 1) / period).
    apply in_window_bounds.
    pose proof (Z.mul_div_le (x + period - 1) period Hpos).
    pose proof (Z.mul_succ_div_gt (x + period - 1) period Hpos).
    unfold x in *. nia.
Qed.

Lemma window_is_met_by_period_witness :
  let a := block "a" (70 * minute) (130 * minute) in
  exists k, in_window (7 * 1000 + k * (5 * minute)) a = true.
Proof.
  intros a.
  assert (Hpos : 0 < 5 * minute) by (vm_compute; reflexivity).
  assert (Hle : 5 * minute <= 10 * 60 * 1000 + 1) by (vm_compute; discriminate).
  exact (proj2 (window_is_met_by_period a (5 * minute) Hpos) Hle (7 * 1000)).
Defined.

(** * Instances of the remaining statements *)

Lemma already_started_never_logged_witness :
  let late := block "l" (62 * minute) (130 * minute) in
  logged (GET open_env fine (60 * minute) anyone (db [late])) =
    [LogNotReady "l" "Too early/late"] /\
  ~ In (LogNotReady "l" "Block already started")
      (logged (GET open_env fine (60 * minute) anyone (db [late]))).
Proof.
  intros late. split; [reflexivity|].
  apply (already_started_never_logged open_env fine (60 * minute) anyone
           (db [late]) "l").
Defined.

Lemma greeting_never_empty_witness :
  let a := block "a" (70 * minute) (130 * minute) in
  let nameless := {| email := Some "bob@example.org"; full_name := None |} in
  userName (render a "bob@example.org" nameless) = "bob".
Proof.
  intros a nameless.
  destruct (greeting_never_empty a "bob@example.org" nameless)
    as (_ & _ & _ & Hlocal & _).
  apply Hlocal; [reflexivity|discriminate].
Defined.

Lemma second_gate_is_stricter_witness :
  let env := {| CRON_SECRET := Some "s3cret"; NODE_ENV := Some "production" |} in
  let req := {| authorization := None;
                user_agent := Some "Mozilla/5.0 (compatible; UptimeRobot/2.0)" |} in
  rejects env req = false /\ Cron2.rejects env req = true.
Proof.
  intros env req. split; [reflexivity|].
  apply second_gate_is_stricter. right.
  exists "s3cret", "Mozilla/5.0 (compatible; UptimeRobot/2.0)".
  repeat split; try reflexivity; discriminate.
Defined.

(** * The first endpoint on rows as the store sends them *)

Lemma endpoint_future_iff now b :
  Endpoint.in_future_not_expired now b = true <->
  Dates.readable (start_time b) = true /\
  Dates.readable (end_time b) = true /\
  now < start_time b /\ now <= end_time b.
Proof.
  unfold Endpoint.in_future_not_expired. cbv zeta.
  rewrite andb_true_iff, Dates_gt_iff, Dates_ge_iff. split.
  - intros [(x & y & Hx & [= <-] & Hgt) (x' & y' & Hx' & [= <-] & Hge)].
    apply new_Date_Some in Hx as [-> ?].
    apply new_Date_Some in Hx' as [-> ?]. repeat split; try done; lia.
  - intros (Hs & He & Hlt & Hle). rewrite !new_Date_readable by done.
    split; [exists (start_time b), now|exists (end_time b), now];
      repeat split; lia.
Qed.

Lemma endpoint_expired_iff now b :
  Endpoint.is_expired now b = true <->
  is_active b = true /\ Dates.readable (end_time b) = true /\
  end_time b < now.
Proof.
  unfold Endpoint.is_expired. cbv zeta.
  rewrite andb_true_iff, Dates_lt_iff. split.
  - intros [Hact (x & y & Hx & [= <-] & Hlt)].
    apply new_Date_Some in Hx as [-> ?]. done.
  - intros (Hact & Hr & Hlt). split; [done|].
    exists (end_time b), now. by rewrite new_Date_readable.
Qed.

Lemma endpoint_window_readable now b :
  Dates.readable (start_time b) = true ->
  Endpoint.in_window now b = in_window now b.
Proof.
  intros H. unfold Endpoint.in_window, Endpoint.timeDiff. cbv zeta.
  by rewrite new_Date_readable.
Qed.

Lemma endpoint_process_readable w ps now s b :
  Dates.readable (start_time b) = true ->
  Endpoint.process_block w ps now s b = process_block w ps now s b.
Proof.
  intros H. unfold Endpoint.process_block, process_block.
  rewrite endpoint_window_readable by done.
  unfold Endpoint.timeDiff. by rewrite new_Date_readable.
Qed.

Lemma endpoint_loop_readable w ps now l : forall s,
  Forall (fun b => Dates.readable (start_time b) = true) l ->
  Endpoint.run_loop w ps now s l = run_loop w ps now s l.
Proof.
  induction l as [|b l IH]; intros s Hl; [done|].
  apply Forall_cons_iff in Hl as [Hb Hl].
  cbn [Endpoint.run_loop run_loop fold_left].
  rewrite endpoint_process_readable by done. by apply IH.
Qed.

Lemma endpoint_active_iff now d b :
  In b (Endpoint.activeBlocks now d) <->
  In b (quiet_blocks d) /\ candidate b = true /\
  Endpoint.in_future_not_expired now b = true.
Proof. unfold Endpoint.activeBlocks. rewrite !filter_In. tauto. Qed.

Lemma endpoint_active_readable now d :
  Forall (fun b => Dates.readable (start_time b) = true)
    (Endpoint.activeBlocks now d).
Proof.
  apply Forall_forall. intros b Hb.
  apply endpoint_active_iff in Hb as (_ & _ & Hb).
  by apply endpoint_future_iff in Hb as (? & _).
Qed.

Lemma deactivate_no_ready w l d i :
  ~ In (LogReady i) (console (deactivate w l (start_state d))).
Proof.
  unfold deactivate.
  destruct (len l >? 0), (deactivate_error w); cbn; intuition congruence.
Qed.

Lemma GET_endpoint_admitted env w now req d :
  rejects env req = false ->
  Endpoint.GET env w now req d = Endpoint.sweep w now d.
Proof. unfold Endpoint.GET. by intros ->. Qed.

Section EndpointSweep.

Variables (w : world) (now : Z) (d : database).
Hypothesis fetched : fetch_error w = false.

Lemma endpoint_ready i :
  In (LogReady i) (logged (Endpoint.sweep w now d)) <->
  exists b, In b (Endpoint.activeBlocks now d) /\
            in_window now b = true /\ id b = i.
Proof using fetched.
  unfold Endpoint.sweep. rewrite fetched.
  fold (Endpoint.activeBlocks now d).
  destruct (len (Endpoint.activeBlocks now d) =? 0) eqn:E; cbn [logged].
  - apply len_zero in E. rewrite E. split.
    + intros H. by apply deactivate_no_ready in H.
    + intros (b & [] & _).
  - rewrite endpoint_loop_readable by apply endpoint_active_readable.
    rewrite run_loop_ready. split.
    + intros [H|H]; [by apply deactivate_no_ready in H|done].
    + by right.
Qed.

Lemma endpoint_delivered :
  delivered (Endpoint.sweep w now d) =
  flat_map (delivery w (profiles d) now) (Endpoint.activeBlocks now d).
Proof using fetched.
  unfold Endpoint.sweep. rewrite fetched.
  fold (Endpoint.activeBlocks now d).
  destruct (deactivate_rest_any w d
              (List.filter (Endpoint.is_expired now)
                 (List.filter candidate (quiet_blocks d))))
    as (Hout & _ & _).
  destruct (len (Endpoint.activeBlocks now d) =? 0) eqn:E; cbn [delivered].
  - apply len_zero in E. by rewrite E.
  - rewrite endpoint_loop_readable by apply endpoint_active_readable.
    by rewrite run_loop_outbox, Hout.
Qed.

Lemma endpoint_status : status (answer (Endpoint.sweep w now d)) = 200.
Proof using fetched.
  unfold Endpoint.sweep. rewrite fetched. by destruct (len _ =? 0).
Qed.

Lemma endpoint_summary :
  Endpoint.activeBlocks now d <> [] ->
  body (answer (Endpoint.sweep w now d)) =
  JObj [("message", JStr "Cron job completed");
        ("timestamp", JIso now);
        ("processed", JNum (len (List.filter candidate (quiet_blocks d))));
        ("sent",
          JNum (len (List.filter (counted_sent w (profiles d) now)
                       (Endpoint.activeBlocks now d))));
        ("errors",
          JNum (len (List.filter (counted_error w (profiles d) now)
                       (Endpoint.activeBlocks now d))))].
Proof using fetched.
  intros Hne. unfold Endpoint.sweep. rewrite fetched.
  fold (Endpoint.activeBlocks now d).
  destruct (deactivate_rest_any w d
              (List.filter (Endpoint.is_expired now)
                 (List.filter candidate (quiet_blocks d))))
    as (_ & Hsent & Herr).
  destruct (len (Endpoint.activeBlocks now d) =? 0) eqn:E.
  - by apply len_zero in E.
  - cbn [answer body NextResponse_json].
    rewrite endpoint_loop_readable by apply endpoint_active_readable.
    by rewrite run_loop_sentCount, run_loop_errorCount, Hsent, Herr.
Qed.

Lemma endpoint_idle :
  Endpoint.activeBlocks now d = [] ->
  body (answer (Endpoint.sweep w now d)) =
  JObj [("message",
          JStr "No active quiet blocks need reminders at this time");
        ("timestamp", JIso now);
        ("checked", JNum (len (List.filter candidate (quiet_blocks d))));
        ("expired", JNum (len (Endpoint.expiredBlocks now d)));
        ("sent", JNum 0);
        ("debug",
          JObj [("totalBlocks",
                  JNum (len (List.filter candidate (quiet_blocks d))));
                ("activeBlocks", JNum 0);
                ("expiredBlocks", JNum (len (Endpoint.expiredBlocks now d)))])].
Proof using fetched.
  intros He. unfold Endpoint.sweep. rewrite fetched.
  fold (Endpoint.expiredBlocks now d). fold (Endpoint.activeBlocks now d).
  rewrite He. reflexivity.
Qed.

End EndpointSweep.

(** The expiry test of [Cron] is the endpoint's on every end from the year
    0001 on. *)
Lemma expired_agrees now b :
  now < Dates.year_10000 -> Dates.year_1 <= end_time b ->
  Endpoint.is_expired now b = Cron.is_expired now b.
Proof.
  intros Hnow Hb.
  unfold Endpoint.is_expired, Cron.is_expired, Dates.new_Date, Dates.readable.
  cbv zeta. destruct (is_active b); [|done]. cbn [andb].
  destruct (Z.leb_spec Dates.year_1 (end_time b)); [|lia]. cbn [andb].
  destruct (Z.ltb_spec (end_time b) Dates.year_10000); cbn [Dates.lt].
  - done.
  - symmetry. apply Z.ltb_ge. lia.
Qed.

(** On a table whose timestamps are all readable, [Cron.GET] is what the
    endpoint does. *)
Lemma endpoint_on_readable env w now req d :
  Forall (fun b => Dates.readable (start_time b) = true /\
                   Dates.readable (end_time b) = true) (quiet_blocks d) ->
  Endpoint.GET env w now req d = GET env w now req d.
Proof.
  intros Hread. unfold Endpoint.GET, GET. destruct (rejects env req); [done|].
  unfold Endpoint.sweep, sweep. destruct (fetch_error w); [done|].
  assert (Hin : forall b, In b (List.filter candidate (quiet_blocks d)) ->
                          Dates.readable (start_time b) = true /\
                          Dates.readable (end_time b) = true).
  { intros b Hb. apply filter_In in Hb as [Hb _].
    by apply (proj1 (Forall_forall _ _) Hread). }
  assert (Hexp : List.filter (Endpoint.is_expired now)
                   (List.filter candidate (quiet_blocks d)) =
                 List.filter (is_expired now)
                   (List.filter candidate (quiet_blocks d))).
  { apply filter_ext_in. intros b Hb. destruct (Hin b Hb) as [_ He].
    unfold Endpoint.is_expired, is_expired. cbv zeta.
    by rewrite new_Date_readable. }
  assert (Hact : List.filter (Endpoint.in_future_not_expired now)
                   (List.filter candidate (quiet_blocks d)) =
                 List.filter (in_future_not_expired now)
                   (List.filter candidate (quiet_blocks d))).
  { apply filter_ext_in. intros b Hb. destruct (Hin b Hb) as [Hs He].
    unfold Endpoint.in_future_not_expired, in_future_not_expired. cbv zeta.
    by rewrite !new_Date_readable. }
  rewrite Hexp, Hact.
  rewrite endpoint_loop_readable; [done|].
  apply Forall_forall. intros b Hb. apply filter_In in Hb as [Hb _].
  by destruct (Hin b Hb).
Qed.

(** C1, as the code has it.  A candidate block whose start and end are
    readable (years 0001 to 9999) and that has not expired is selected for
    a reminder dispatch (it enters the branch that looks up the owner and
    sends the mail, logged as "ready for reminder") exactly when its start
    lies strictly after [now] and [now] is within five minutes of ten
    minutes before the start.  In particular it is selected when [now] is
    exactly ten minutes before the start, and it is not selected one
    millisecond before the window opens or one millisecond after it
    closes. *)
Theorem due_window_selection env w now req d b :
  rejects env req = false ->
  fetch_error w = false ->
  NoDup (map id (quiet_blocks d)) ->
  In b (quiet_blocks d) ->
  candidate b = true ->
  Dates.readable (start_time b) = true ->
  Dates.readable (end_time b) = true ->
  now <= end_time b ->
  let selected :=
    In (LogReady (id b)) (logged (Endpoint.GET env w now req d)) in
  let reminderAt := start_time b - 10 * 60 * 1000 in
  let DUE_SLACK := 5 * 60 * 1000 in
  (selected <-> now < start_time b /\ Z.abs (now - reminderAt) <= DUE_SLACK) /\
  (now = reminderAt -> selected) /\
  (now = reminderAt - DUE_SLACK - 1 -> ~ selected) /\
  (now = reminderAt + DUE_SLACK + 1 -> ~ selected).
Proof.
  intros Hauth Hfetch Hnd Hb Hcand Hrs Hre Hend selected reminderAt DUE_SLACK.
  assert (Hsel : selected <->
            now < start_time b /\ Z.abs (now - reminderAt) <= DUE_SLACK).
  { unfold selected. rewrite GET_endpoint_admitted, endpoint_ready by done.
    split.
    - intros (c & Hc & Hwin & Hid).
      apply endpoint_active_iff in Hc as (Hc & _ & _).
      assert (c = b) as -> by (by apply (same_id_same_row (quiet_blocks d))).
      apply in_window_iff in Hwin. unfold reminderAt, DUE_SLACK. lia.
    - intros [Hlt Habs]. exists b. split; [|split]; [| |done].
      + apply endpoint_active_iff. split; [done|]. split; [done|].
        apply endpoint_future_iff. repeat split; try done; lia.
      + apply in_window_iff. unfold reminderAt, DUE_SLACK in Habs. lia. }
  split; [exact Hsel|].
  unfold reminderAt, DUE_SLACK in *.
  repeat split; intros Hnow; rewrite Hsel; lia.
Qed.

Lemma due_window_selection_witness :
  let b := block "a" (70 * minute) (130 * minute) in
  let now := 60 * minute in
  now <= end_time b /\
  In (LogReady (id b)) (logged (Endpoint.GET open_env fine now anyone (db [b]))).
Proof.
  intros b now.
  assert (Hend : now <= end_time b) by (vm_compute; discriminate).
  split; [exact Hend|].
  assert (Hnd : NoDup (map id (quiet_blocks (db [b])))).
  { apply NoDup_cons; [intros []|apply NoDup_nil]. }
  destruct (due_window_selection open_env fine now anyone (db [b]) b
              eq_refl eq_refl Hnd (or_introl eq_refl) eq_refl eq_refl eq_refl
              Hend)
    as (_ & Hat & _).
  apply Hat. reflexivity.
Defined.

(** C1 as stated fails for a block whose end the endpoint cannot read: the
    block is a candidate, has not expired, starts ten minutes after [now],
    and is not selected, because the end, in the year 10000, is an Invalid
    Date, for which the test [endTime >= now] of line 108 is false. *)
Lemma due_window_selection_counterexample :
  let b := block "a" (70 * minute) Dates.year_10000 in
  let now := 60 * minute in
  let r := Endpoint.GET open_env fine now anyone (db [b]) in
  candidate b = true /\
  now <= end_time b /\
  now < start_time b /\
  now = start_time b - 10 * 60 * 1000 /\
  ~ In (LogReady (id b)) (logged r) /\
  delivered r = [] /\
  store r = db [b].
Proof.
  cbv zeta. split; [reflexivity|]. split; [vm_compute; discriminate|].
  split; [vm_compute; reflexivity|]. split; [reflexivity|].
  split; [|split; reflexivity]. intros [].
Qed.

(** C9, as the code has it.  A failed candidate read is answered 500 with
    an error payload.  A successful one is answered 200, and the summary
    has two shapes.  When at least one candidate has a readable start after
    [now] and a readable end not before [now], it carries [timestamp],
    [processed] (the number of candidates read), [sent] (the blocks whose
    mail went out and whose row was marked) and [errors] (the blocks whose
    contact resolved and whose transport call or marking update failed; a
    block skipped for a missing profile or email is not counted), and
    neither [checked], [expired] nor [debug].  Otherwise it carries
    [timestamp], [checked], [expired], [sent = 0] and a [debug] object
    repeating the three counts, and neither [processed] nor [errors]. *)
Theorem sweep_answer env w now req d :
  rejects env req = false ->
  let r := Endpoint.GET env w now req d in
  let ps := profiles d in
  let read := List.filter candidate (quiet_blocks d) in
  let active := Endpoint.activeBlocks now d in
  let expired := Endpoint.expiredBlocks now d in
  (fetch_error w = true ->
   status (answer r) = 500 /\
   body (answer r) = JObj [("error", JStr "Failed to fetch quiet blocks")]) /\
  (fetch_error w = false ->
   status (answer r) = 200 /\
   field "timestamp" (body (answer r)) = Some (JIso now) /\
   (active <> [] ->
    field "processed" (body (answer r)) = Some (JNum (len read)) /\
    field "sent" (body (answer r)) =
      Some (JNum (len (List.filter (counted_sent w ps now) active))) /\
    field "errors" (body (answer r)) =
      Some (JNum (len (List.filter (counted_error w ps now) active))) /\
    field "checked" (body (answer r)) = None /\
    field "expired" (body (answer r)) = None /\
    field "debug" (body (answer r)) = None) /\
   (active = [] ->
    field "checked" (body (answer r)) = Some (JNum (len read)) /\
    field "expired" (body (answer r)) = Some (JNum (len expired)) /\
    field "sent" (body (answer r)) = Some (JNum 0) /\
    field "debug" (body (answer r)) =
      Some (JObj [("totalBlocks", JNum (len read));
                  ("activeBlocks", JNum 0);
                  ("expiredBlocks", JNum (len expired))]) /\
    field "processed" (body (answer r)) = None /\
    field "errors" (body (answer r)) = None)) /\
  (forall b,
     In b active <->
     In b read /\
     Dates.readable (start_time b) = true /\ now < start_time b /\
     Dates.readable (end_time b) = true /\ now <= end_time b) /\
  (forall b,
     In b expired <->
     In b read /\ Dates.readable (end_time b) = true /\ end_time b < now) /\
  (forall b,
     counted_sent w ps now b = true <->
     now + 5 * 60 * 1000 <= start_time b <= now + 15 * 60 * 1000 /\
     (exists p e, fetch_profile w ps (user_id b) = Some p /\
                  email p = Some e /\ e <> "") /\
     transport_fails w b = false /\ mark_error w (id b) = false) /\
  (forall b,
     counted_error w ps now b = true <->
     now + 5 * 60 * 1000 <= start_time b <= now + 15 * 60 * 1000 /\
     (exists p e, fetch_profile w ps (user_id b) = Some p /\
                  email p = Some e /\ e <> "") /\
     (transport_fails w b = true \/ mark_error w (id b) = true)).
Proof.
  intros Hauth. cbv zeta. rewrite GET_endpoint_admitted by done.
  split; [|split; [|split; [|split; [|split]]]].
  - intros Hf. unfold Endpoint.sweep. by rewrite Hf.
  - intros Hf. split; [by apply endpoint_status|].
    destruct (Endpoint.activeBlocks now d) as [|x l] eqn:E.
    + rewrite endpoint_idle by done. split; [done|]. split; [done|].
      intros _. done.
    + assert (Hne : Endpoint.activeBlocks now d <> []) by (by rewrite E).
      rewrite endpoint_summary by done. rewrite E. split; [done|].
      split; [done|]. intros [=].
  - intros b. unfold Endpoint.activeBlocks. rewrite filter_In.
    rewrite endpoint_future_iff. tauto.
  - intros b. unfold Endpoint.expiredBlocks. rewrite filter_In.
    rewrite endpoint_expired_iff. split; [tauto|].
    intros (Hb & Hr & Hlt). split; [done|]. split; [|done].
    apply filter_In in Hb as [_ Hb]. by apply candidate_iff in Hb as [? _].
  - intros b. rewrite counted_sent_world, in_window_bounds. tauto.
  - intros b. rewrite counted_error_iff, in_window_bounds. tauto.
Qed.

Lemma sweep_answer_witness :
  let a := block "a" (70 * minute) (130 * minute) in
  let r := Endpoint.GET open_env (smtp_refuses "a") (60 * minute) anyone
             (db [a]) in
  status (answer r) = 200 /\
  field "processed" (body (answer r)) = Some (JNum 1) /\
  field "sent" (body (answer r)) = Some (JNum 0) /\
  field "errors" (body (answer r)) = Some (JNum 1).
Proof.
  intros a r.
  destruct (sweep_answer open_env (smtp_refuses "a") (60 * minute) anyone
              (db [a]) eq_refl) as (_ & Hok & _).
  destruct (Hok eq_refl) as (Hst & _ & Hfull & _).
  split; [exact Hst|].
  destruct Hfull as (H1 & H2 & H3 & _); [discriminate|].
  exact (conj H1 (conj H2 H3)).
Defined.

(** C9 as stated fails in two places.  With no candidate in the future the
    200 answer has neither a [processed] nor an [errors] field; and a due
    block that is skipped because its owner's profile cannot be read is a
    per-block failure that [errors] does not count. *)
Lemma sweep_answer_counterexample :
  (let r := Endpoint.GET open_env fine (60 * minute) anyone (db []) in
   status (answer r) = 200 /\
   field "processed" (body (answer r)) = None /\
   field "errors" (body (answer r)) = None) /\
  (let a := block "a" (70 * minute) (130 * minute) in
   let r := Endpoint.GET open_env lookup_broken (60 * minute) anyone
              (db [a]) in
   logged r = [LogReady "a"; WarnNoProfile "u1"] /\
   delivered r = [] /\
   field "errors" (body (answer r)) = Some (JNum 0)).
Proof. split; cbv zeta; repeat split; reflexivity. Qed.
